(** * dfTimewolf: the Turbinia processor

    A shallow embedding of [dftimewolf/lib/processors/turbinia.py]
    (class [TurbiniaProcessor]) together with the containers it reads and
    writes ([dftimewolf/lib/containers/containers.py]).

    - Python strings are [string]; [str.startswith], [str.endswith] and the
      [format] fields used by the module are written out in [Py].
    - A Turbinia task is a Python dict; the keys the module reads are the
      fields of [task], each entry being absent, [None] or a value.
    - The dict [tasks] and the sets [completed_tasks] / [pending_tasks] of
      [display_task_progress] are a [gmap] and two [gset]s.
    - The effects of the module (printing, sleeping, calls to the Turbinia
      client, to the file system and to the GCS output writer) are recorded
      as a trace of [event]s; the dfTimewolf state is threaded explicitly. *)

From Stdlib Require Import String Ascii List Arith Lia DecimalString.
From stdpp Require Import base gmap sets list strings.

Local Open Scope string_scope.
Local Open Scope list_scope.

(** ** Python strings and dict entries *)

Module Py.

(** [s.startswith(prefix)] *)
Fixpoint startswith (s prefix : string) : bool :=
  match prefix, s with
  | EmptyString, _ => true
  | String _ _, EmptyString => false
  | String a prefix', String b s' =>
      if Ascii.eqb a b then startswith s' prefix' else false
  end.

(** [s.endswith(suffix)]: [s] is [suffix], or its tail ends with it. *)
Fixpoint endswith (s suffix : string) : bool :=
  String.eqb s suffix ||
  match s with
  | EmptyString => false
  | String _ s' => endswith s' suffix
  end.

(** The last character of a string, when it has one. *)
Fixpoint last_char (s : string) : option ascii :=
  match s with
  | EmptyString => None
  | String a EmptyString => Some a
  | String _ s' => last_char s'
  end.

(** The format field [{:d}] applied to a non-negative integer. *)
Definition format_d (n : nat) : string :=
  NilEmpty.string_of_uint (Nat.to_uint n).

(** An entry of a dict read by key: the key is missing, it is bound to
    [None], or it is bound to a value. *)
Inductive field (A : Type) : Type :=
| Absent
| PyNone
| Present (a : A).
Arguments Absent {A}.
Arguments PyNone {A}.
Arguments Present {A} a.

(** [d.get(key)]: [None] both when the key is missing and when it is bound
    to [None]. *)
Definition get {A} (f : field A) : option A :=
  match f with
  | Present a => Some a
  | Absent | PyNone => None
  end.

(** [d.get(key, default)]: the default only replaces a missing key. *)
Definition get_default {A} (f : field A) (default : A) : option A :=
  match f with
  | Absent => Some default
  | PyNone => None
  | Present a => Some a
  end.

(** The format field [{!s}] applied to a string or to [None]. *)
Definition format_s (o : option string) : string :=
  match o with
  | Some s => s
  | None => "None"
  end.

(** [x or []] for [x] a list or [None]. *)
Definition or_empty {A} (o : option (list A)) : list A :=
  match o with
  | Some l => l
  | None => []
  end.

End Py.

(** ** Containers ([containers.py]) *)

Record ThreatIntelligence : Type := mkThreatIntelligence {
  ti_name : string;
  indicator : string;
  ti_path : string
}.

Record Report : Type := mkReport {
  module_name : string;
  text : string;
  text_format : string
}.

(** [containers.Report(module_name, text)]: [text_format] defaults to
    ['plaintext']. *)
Definition new_Report (module_name text : string) : Report :=
  mkReport module_name text "plaintext".

(** ** Turbinia tasks *)

(** A task dict as returned by [client.get_task_data]. [display_task_progress]
    and [_print_task_data] index ['id'] and ['name'] and format them with
    [{:s}], so both are strings; the other keys are read with [get]. *)
Record task : Type := Task {
  task_id : string;
  task_name : string;
  task_status : Py.field string;
  task_successful : Py.field bool;
  task_saved_paths : Py.field (list string)
}.

(** [task.get('successful') is not None] *)
Definition has_result (t : task) : bool :=
  match Py.get (task_successful t) with
  | Some _ => true
  | None => false
  end.

(** ** Effects *)

(** [evidence.GoogleCloudDisk(disk_name=..., project=..., zone=...)] *)
Record GoogleCloudDisk : Type := mkGoogleCloudDisk {
  ev_disk_name : string;
  ev_project : string;
  ev_zone : string
}.

(** A [TurbiniaRequest]: its id, the evidence appended to it, and its
    recipe, a dict. *)
Record TurbiniaRequest : Type := mkTurbiniaRequest {
  request_id : string;
  evidence : list GoogleCloudDisk;
  recipe : gmap string (list string)
}.

Record request_dict : Type := mkRequestDict {
  rd_instance : string;
  rd_project : string;
  rd_region : string;
  rd_request_id : string
}.

Inductive event : Type :=
| Print (line : string)
| Sleep (seconds : nat)
| SendRequest (request : TurbiniaRequest)
| WaitForRequest (coordinates : request_dict)
| GetTaskData (coordinates : request_dict)
| PathExists (path : string)
| CopyFrom (path : string) (local_output_dir : string).

(** ** [TurbiniaProcessor._print_task_data] *)

(** The lines printed for the saved paths of a task. *)
Fixpoint print_paths (id : string) (paths : list string) : list string :=
  match paths with
  | [] => []
  | path :: rest =>
      if Py.endswith path "worker-log.txt" then print_paths id rest
      else if Py.endswith path (id +:+ ".log") then print_paths id rest
      else if Py.startswith path "/" then print_paths id rest
      else ("   " +:+ path) :: print_paths id rest
  end.

Definition _print_task_data (t : task) : list string :=
  (" " +:+ task_name t +:+ " (" +:+ task_id t +:+ ")") ::
  match Py.get_default (task_saved_paths t) [] with
  | None | Some [] => []
  | Some paths => print_paths (task_id t) paths
  end.

(** ** [TurbiniaProcessor.display_task_progress] *)

Module Poller.

(** [tasks = {task['id']: task for task in task_results}]: a later record
    with the same id replaces an earlier one. *)
Definition tasks_by_id (task_results : list task) : gmap string task :=
  foldl (fun tasks t => <[task_id t := t]> tasks) ∅ task_results.

(** The loop over [tasks.values()] filling [completed_tasks] and
    [pending_tasks]. *)
Definition classify (tasks : gmap string task) : gset string * gset string :=
  map_fold
    (fun _ t sets =>
       if has_result t
       then ({[task_id t]} ∪ sets.1, sets.2)
       else (sets.1, {[task_id t]} ∪ sets.2))
    (∅, ∅) tasks.

Definition completed_tasks (task_results : list task) : gset string :=
  (classify (tasks_by_id task_results)).1.

Definition pending_tasks (task_results : list task) : gset string :=
  (classify (tasks_by_id task_results)).2.

(** [for task_id in ids: self._print_task_data(tasks[task_id])]; every id
    of either set is a key of [tasks], so the lookup never misses. Python
    does not fix the order in which a set is iterated; [elements] is one
    such order, and no statement below depends on it. *)
Definition print_tasks (tasks : gmap string task) (ids : gset string)
  : list string :=
  i ← elements ids; default [] (_print_task_data <$> tasks !! i).

(** The test guarding the progress report:
    [len(completed_tasks) > total_completed or not completed_tasks]. *)
Definition reports (total_completed : nat) (task_results : list task) : bool :=
  (total_completed <? size (completed_tasks task_results))%nat
  || bool_decide (completed_tasks task_results = ∅).

(** The lines of one progress report. *)
Definition progress_report (task_results : list task) : list string :=
  let tasks := tasks_by_id task_results in
  ("Task status update (completed: "
     +:+ Py.format_d (size (completed_tasks task_results))
     +:+ " | pending: "
     +:+ Py.format_d (size (pending_tasks task_results)) +:+ ")")
  :: "Completed tasks:" :: print_tasks tasks (completed_tasks task_results)
  ++ "Pending tasks:" :: print_tasks tasks (pending_tasks task_results).

(** The exit test:
    [len(completed_tasks) == len(task_results) and completed_tasks]. *)
Definition all_completed (task_results : list task) : bool :=
  (size (completed_tasks task_results) =? length task_results)%nat
  && negb (bool_decide (completed_tasks task_results = ∅)).

(** What one iteration prints before the exit test. *)
Definition emitted (total_completed : nat) (task_results : list task)
  : list string :=
  if reports total_completed task_results
  then progress_report task_results
  else [].

(** [total_completed] after one iteration. *)
Definition update_total (total_completed : nat) (task_results : list task)
  : nat :=
  if reports total_completed task_results
  then size (completed_tasks task_results)
  else total_completed.

(** What a run of the loop has done so far: whether it has returned, the
    number of polls it has made, and its events. *)
Record result : Type := mkResult {
  returned : bool;
  polls : nat;
  trace : list event
}.

Definition add_events (evs : list event) (r : result) : result :=
  mkResult (returned r) (polls r) (evs ++ trace r).

(** The [while True] loop. [poll i] is the answer of the [i]-th call of
    [client.get_task_data] (counted from 0), and [fuel] bounds the number
    of iterations that are run: after [fuel] iterations without [return]
    the loop is still running. *)
Fixpoint loop (poll : nat -> list task) (poll_interval : nat)
    (fuel i total_completed : nat) : result :=
  match fuel with
  | O => mkResult false i []
  | S fuel' =>
      let task_results := poll i in
      let out := Print <$> emitted total_completed task_results in
      if all_completed task_results
      then mkResult true (S i)
             (out ++ [Print ("All " +:+ Py.format_d (length task_results)
                               +:+ " Tasks completed")])
      else add_events (out ++ [Sleep poll_interval])
             (loop poll poll_interval fuel' (S i)
                (update_total total_completed task_results))
  end.

Definition display_task_progress (poll : nat -> list task)
    (poll_interval : nat) (fuel : nat) : result :=
  loop poll poll_interval fuel 0 0.

(** The loop returns: some number of iterations suffices. *)
Definition terminates (poll : nat -> list task) (poll_interval : nat) : Prop :=
  exists fuel, returned (display_task_progress poll poll_interval fuel) = true.

(** The value of [total_completed] at the start of iteration [n]. *)
Fixpoint total_at (poll : nat -> list task) (n : nat) : nat :=
  match n with
  | O => 0
  | S m => update_total (total_at poll m) (poll m)
  end.

(** What iteration [n] prints as progress. *)
Definition emitted_at (poll : nat -> list task) (n : nat) : list string :=
  emitted (total_at poll n) (poll n).

(** The events of iteration [n] when it does not leave the loop. *)
Definition iteration_events (poll : nat -> list task) (dt n : nat)
  : list event :=
  (Print <$> emitted_at poll n) ++ [Sleep dt].

(** The number of completed tasks seen by iteration [n]. *)
Definition completed_count (poll : nat -> list task) (n : nat) : nat :=
  size (completed_tasks (poll n)).

End Poller.

(** ** The dfTimewolf state *)

(** A disk handed over by the previous collector: [process] only reads its
    [name]. *)
Record Disk : Type := mkDisk {
  disk_name_of : string
}.

Definition TurbiniaException : Type := string.

(** What [state.add_error] is given: a message, or a caught exception. *)
Inductive error : Type :=
| Message (msg : string)
| Exception (e : TurbiniaException).

Inductive container : Type :=
| ThreatIntelligenceContainer (c : ThreatIntelligence)
| ReportContainer (c : Report).

Record State : Type := mkState {
  input : list (string * Disk);
  output : list (string * string);
  errors : list (error * bool);
  store : list container
}.

(** Modelled from the spec: [state.get_containers] of the state object of
    the pipeline ([dftimewolf/lib/state.py], not among the sources), the
    "get containers of type T" of the spec, at the type
    [containers.ThreatIntelligence]. *)
Definition get_containers_ThreatIntelligence (st : State)
  : list ThreatIntelligence :=
  omap (fun c => match c with
                 | ThreatIntelligenceContainer ti => Some ti
                 | ReportContainer _ => None
                 end) (store st).

(** Modelled from the spec: [state.store_container] of the same state
    object, the "store result container" of the spec. *)
Definition store_container (c : container) (st : State) : State :=
  mkState (input st) (output st) (errors st) (store st ++ [c]).

(** Modelled from the spec: [state.add_error] of the same state object; the
    error is recorded with its [critical] flag, which is what surfaces to
    the orchestrator. *)
Definition add_error (e : error) (critical : bool) (st : State) : State :=
  mkState (input st) (output st) (errors st ++ [(e, critical)]) (store st).

(** The assignment [self.state.output = out]. *)
Definition set_output (out : list (string * string)) (st : State) : State :=
  mkState (input st) out (errors st) (store st).

(** ** The processor and its collaborators *)

(** The attributes of a [TurbiniaProcessor] after [setup]; [disk_name] is a
    string, empty when no disk was named ([not self.disk_name]). *)
Record TurbiniaProcessor : Type := mkTurbiniaProcessor {
  disk_name : string;
  instance : string;
  project : string;
  turbinia_region : string;
  turbinia_zone : string;
  _output_path : string
}.

Definition set_disk_name (name : string) (self : TurbiniaProcessor)
  : TurbiniaProcessor :=
  mkTurbiniaProcessor name (instance self) (project self)
    (turbinia_region self) (turbinia_zone self) (_output_path self).

(** The answers of the collaborators of one run: the Turbinia client and
    library, the file system, and the GCS output writer. A call that raises
    [TurbiniaException] answers with the exception. *)
Record World : Type := mkWorld {
  (** [TurbiniaRequest()] *)
  new_request : TurbiniaRequest;
  (** [evidence_.name] *)
  evidence_name : GoogleCloudDisk -> string;
  send_request : TurbiniaRequest -> option TurbiniaException;
  wait_for_request : request_dict -> option TurbiniaException;
  get_task_data : request_dict -> TurbiniaException + list task;
  (** [os.path.exists] *)
  path_exists : string -> bool;
  (** [GCSOutputWriter(path, local_output_dir=d).copy_from(path)]: the local
      path of the copy, possibly [None]. *)
  copy_from : string -> string -> TurbiniaException + option string
}.

(** ** A monad for [process]: state, trace, early return *)

Record Sys : Type := mkSys {
  self_of : TurbiniaProcessor;
  state_of : State;
  trace_of : list event
}.

Inductive outcome (A : Type) : Type :=
| Value (a : A)
| Return
| Raise (e : TurbiniaException).
Arguments Value {A} a.
Arguments Return {A}.
Arguments Raise {A} e.

Definition M (A : Type) : Type := Sys -> outcome A * Sys.

Definition ret {A} (a : A) : M A := fun s => (Value a, s).

Definition bind {A B} (m : M A) (k : A -> M B) : M B :=
  fun s =>
    match m s with
    | (Value a, s') => k a s'
    | (Return, s') => (Return, s')
    | (Raise e, s') => (Raise e, s')
    end.

Notation "'do' x <- m ; k" := (bind m (fun x => k))
  (at level 10, x name, m at level 99, k at level 200).
Notation "m ;; k" := (bind m (fun _ => k))
  (at level 100, k at level 200, right associativity).

(** [return] *)
Definition return_ {A} : M A := fun s => (Return, s).

Definition raise {A} (e : TurbiniaException) : M A := fun s => (Raise e, s).

(** [try: body except TurbiniaException as e: handler] *)
Definition try_except {A} (body : M A) (handler : TurbiniaException -> M A)
  : M A :=
  fun s =>
    match body s with
    | (Raise e, s') => handler e s'
    | r => r
    end.

Definition get_self : M TurbiniaProcessor := fun s => (Value (self_of s), s).
Definition get_state : M State := fun s => (Value (state_of s), s).

Definition update_self (f : TurbiniaProcessor -> TurbiniaProcessor) : M unit :=
  fun s => (Value tt, mkSys (f (self_of s)) (state_of s) (trace_of s)).

Definition update_state (f : State -> State) : M unit :=
  fun s => (Value tt, mkSys (self_of s) (f (state_of s)) (trace_of s)).

Definition emit (e : event) : M unit :=
  fun s => (Value tt, mkSys (self_of s) (state_of s) (trace_of s ++ [e])).

Definition print (line : string) : M unit := emit (Print line).

(** A call that may raise. *)
Definition call (e : event) (answer : option TurbiniaException) : M unit :=
  emit e ;;
  match answer with
  | Some exn => raise exn
  | None => ret tt
  end.

Definition call_with {A} (e : event) (answer : TurbiniaException + A) : M A :=
  emit e ;;
  match answer with
  | inl exn => raise exn
  | inr a => ret a
  end.

(** ** [TurbiniaProcessor.process] *)

Definition newline : string := String (ascii_of_nat 10) EmptyString.

(** [os.path.join(a, b)] for a relative [b]. *)
Definition os_path_join (a b : string) : string :=
  if String.eqb a "" then b
  else if Py.endswith a "/" then a +:+ b
  else a +:+ "/" +:+ b.

(** The lines added to the report for the saved paths of a task. *)
Fixpoint report_paths (id : string) (paths : list string) : string :=
  match paths with
  | [] => ""
  | path :: rest =>
      if Py.endswith path "worker-log.txt" then report_paths id rest
      else if Py.endswith path (id +:+ ".log") then report_paths id rest
      else if Py.startswith path "/" then report_paths id rest
      else "  " +:+ path +:+ newline +:+ report_paths id rest
  end.

(** The status line of a task in the report. *)
Definition status_line (t : task) : string :=
  task_name t +:+ " (" +:+ task_id t +:+ "): "
    +:+ Py.format_s (Py.get_default (task_status t) "No task status")
    +:+ newline.

(** The part of the report for one task: its status line, then its paths. *)
Definition report_task (t : task) : string :=
  status_line t
    +:+ report_paths (task_id t) (Py.or_empty (Py.get (task_saved_paths t))).

(** The first line of the report. *)
Definition report_header (task_data : list task) : string :=
  "Completed " +:+ Py.format_d (length task_data) +:+ " Turbinia tasks"
    +:+ newline.

(** The human-readable message of results. *)
Definition report_message (task_data : list task) : string :=
  foldl (fun message t => message +:+ report_task t)
    (report_header task_data) task_data.

(** The two tests of the loop finding the [.plaso] files. *)
Definition is_local_plaso (path : string) : bool :=
  Py.startswith path "/" && Py.endswith path ".plaso".

Definition is_gs_plaso (path : string) : bool :=
  Py.startswith path "gs://" && Py.endswith path ".plaso".

(** The body of the loop filling [local_paths] and [gs_paths], for one saved
    path: the two tests, one after the other. *)
Definition keep_plaso (found : list string * list string) (path : string)
  : list string * list string :=
  let found :=
    if is_local_plaso path then (found.1 ++ [path], found.2) else found in
  if is_gs_plaso path then (found.1, found.2 ++ [path]) else found.

(** The loop over the tasks and over the saved paths of each. *)
Definition find_plaso (task_data : list task) : list string * list string :=
  foldl
    (fun found t =>
       foldl keep_plaso found (Py.or_empty (Py.get (task_saved_paths t))))
    ([], []) task_data.

Definition local_paths (task_data : list task) : list string :=
  (find_plaso task_data).1.

Definition gs_paths (task_data : list task) : list string :=
  (find_plaso task_data).2.

(** [timeline_label = '{0:s}-{1:s}'.format(self.project, self.disk_name)] *)
Definition timeline_label (self : TurbiniaProcessor) : string :=
  project self +:+ "-" +:+ disk_name self.

Section Process.
Context (w : World).

(** [[p for p in local_paths if os.path.exists(p)]] *)
Fixpoint existing (paths : list string) : M (list string) :=
  match paths with
  | [] => ret []
  | p :: rest =>
      emit (PathExists p) ;;
      do rest' <- existing rest ;
      ret (if path_exists w p then p :: rest' else rest')
  end.

(** The loop copying the files of [gs_paths] back from GCS. *)
Fixpoint fetch (label : string) (paths : list string) : M unit :=
  match paths with
  | [] => ret tt
  | path :: rest =>
      do self <- get_self ;
      do local_path <-
        try_except
          (call_with (CopyFrom path (_output_path self))
             (copy_from w path (_output_path self)))
          (fun e =>
             update_state (add_error (Exception e) true) ;;
             return_) ;
      (match local_path with
       | Some p =>
           if String.eqb p "" then ret tt
           else update_state (fun st =>
                  set_output (output st ++ [(label, p)]) st)
       | None => ret tt
       end) ;;
      fetch label rest
  end.

(** [process], first part: the disk, the request, and the Turbinia run up
    to the task data. *)
Definition dispatch : M (list task) :=
  do self <- get_self ;
  let log_file_path := os_path_join (_output_path self) "turbinia.log" in
  print ("Turbinia log file: " +:+ log_file_path) ;;

  do st <- get_state ;
  (match input st with
   | (_, disk) :: _ =>
       if String.eqb (disk_name self) ""
       then
         update_self (set_disk_name (disk_name_of disk)) ;;
         print ("Using disk " +:+ disk_name_of disk
                  +:+ " from previous collector")
       else ret tt
   | [] => ret tt
   end) ;;

  do self <- get_self ;
  let evidence_ :=
    mkGoogleCloudDisk (disk_name self) (project self) (turbinia_zone self) in
  let request :=
    mkTurbiniaRequest (request_id (new_request w))
      (evidence (new_request w) ++ [evidence_])
      (recipe (new_request w)) in

  do st <- get_state ;
  let threatintel := get_containers_ThreatIntelligence st in
  do request <-
    (match threatintel with
     | [] => ret request
     | _ :: _ =>
         print ("Sending " +:+ Py.format_d (length threatintel)
                  +:+ " threatintel to Turbinia GrepWorkers...") ;;
         let indicators := indicator <$> threatintel in
         ret (mkTurbiniaRequest (request_id request) (evidence request)
                (<["filter_patterns" := indicators]> (recipe request)))
     end) ;

  let request_dict :=
    mkRequestDict (instance self) (project self) (turbinia_region self)
      (request_id request) in

  try_except
    (print ("Creating Turbinia request " +:+ request_id request
              +:+ " with Evidence " +:+ evidence_name w evidence_) ;;
     call (SendRequest request) (send_request w request) ;;
     print ("Waiting for Turbinia request " +:+ request_id request
              +:+ " to complete") ;;
     call (WaitForRequest request_dict) (wait_for_request w request_dict) ;;
     call_with (GetTaskData request_dict) (get_task_data w request_dict))
    (fun e =>
       update_state (add_error (Exception e) true) ;;
       return_).

(** [process], second part: the message of results, printed and stored as
    a report. *)
Definition publish (task_data : list task) : M unit :=
  let message := report_message task_data in
  print message ;;
  let report := new_Report "TurbiniaProcessor" message in
  update_state (store_container (ReportContainer report)).

(** [process], last part: the [.plaso] files of the Turbinia output become
    the output of the module. *)
Definition collect (task_data : list task) : M unit :=
  do self <- get_self ;
  let label := timeline_label self in
  let local_paths := local_paths task_data in
  let gs_paths := gs_paths task_data in

  (match local_paths, gs_paths with
   | [], [] =>
       update_state
         (add_error (Message "No .plaso files found in Turbinia output.")
            true) ;;
       return_
   | _, _ => ret tt
   end) ;;

  do found <- existing local_paths ;
  update_state (set_output ((fun p => (label, p)) <$> found)) ;;

  fetch label gs_paths ;;

  do st <- get_state ;
  match output st with
  | [] =>
      update_state
        (add_error (Message "No .plaso files could be found.") true)
  | _ :: _ => ret tt
  end.

Definition process : M unit :=
  do task_data <- dispatch ;
  publish task_data ;;
  collect task_data.

End Process.

(** Running [process] on a processor and a state, with an empty trace. *)
Definition run_process (w : World) (self : TurbiniaProcessor) (st : State)
  : Sys :=
  (process w (mkSys self st [])).2.

(** Running the last part alone, from any point of a run. *)
Definition run_collect (w : World) (task_data : list task) (s : Sys) : Sys :=
  (collect w task_data s).2.

(** ** Vocabulary of the statements *)

(** The saved paths of a snapshot in discovery order: task order, then path
    order within each task. *)
Definition saved_paths (task_data : list task) : list string :=
  t ← task_data; Py.or_empty (Py.get (task_saved_paths t)).

(** A fetch that raises. *)
Definition fetch_fails (w : World) (dir path : string) : Prop :=
  exists e, copy_from w path dir = inl e.

(** The local copy a fetch adds to the output, if any. *)
Definition copied (w : World) (dir path : string) : option string :=
  match copy_from w path dir with
  | inr (Some q) => if String.eqb q "" then None else Some q
  | _ => None
  end.

(** The artifact paths retained from a snapshot when no fetch raises: the
    local paths that exist, then the copies of the remote ones. *)
Definition retained (w : World) (dir : string) (task_data : list task)
  : list string :=
  List.filter (path_exists w) (local_paths task_data)
  ++ omap (copied w dir) (gs_paths task_data).

(** The artifact list in plain discovery order: each saved path, in task
    order then path order, gives its entry where it stands. *)
Definition in_discovery_order (w : World) (dir label : string)
    (task_data : list task) : list (string * string) :=
  path ← saved_paths task_data;
  if is_local_plaso path
  then (if path_exists w path then [(label, path)] else [])
  else if is_gs_plaso path
  then (match copied w dir path with
        | Some q => [(label, q)]
        | None => []
        end)
  else [].

(** The processor once [process] has looked at the input: the disk of the
    previous collector is taken when none was named. *)
Definition with_input_disk (self : TurbiniaProcessor) (st : State)
  : TurbiniaProcessor :=
  match input st with
  | (_, disk) :: _ =>
      if String.eqb (disk_name self) ""
      then set_disk_name (disk_name_of disk) self
      else self
  | [] => self
  end.

(** The events of the collaborators that [collect] calls. *)
Definition is_collect_event (e : event) : Prop :=
  match e with
  | PathExists _ | CopyFrom _ _ => True
  | _ => False
  end.

(** The strings of a list, one after the other. *)
Definition joined (parts : list string) : string :=
  foldr String.append "" parts.

(** The two messages of the "no usable output" error. *)
Definition no_artifacts_error (e : error) : Prop :=
  e = Message "No .plaso files found in Turbinia output."
  \/ e = Message "No .plaso files could be found.".

(** The filter patterns of a request: the entry of its recipe, no entry
    meaning no pattern. *)
Definition filter_patterns (request : TurbiniaRequest) : list string :=
  default [] (recipe request !! "filter_patterns").

(** A saved path that is a worker log or the log of some task. *)
Definition is_log (path : string) : Prop :=
  Py.endswith path "worker-log.txt" = true
  \/ exists id : string, Py.endswith path (id +:+ ".log") = true.

(** ** A sample run *)

Module Examples.

Definition processor : TurbiniaProcessor :=
  mkTurbiniaProcessor "disk-1" "turbinia" "project-a" "us-central1"
    "us-central1-f" "/tmp/turbinia".

Definition fresh_state : State :=
  mkState [] [] []
    [ThreatIntelligenceContainer
       (mkThreatIntelligence "malware" "evil\.exe" "/indicators/1");
     ThreatIntelligenceContainer
       (mkThreatIntelligence "c2" "10\.0\.0\.[0-9]+" "/indicators/2")].

(** A task with a local result, a worker log and a remote result. *)
Definition plaso_task : task :=
  Task "t1" "PlasoTask" (Py.Present "Completed") (Py.Present true)
    (Py.Present
       ["/out/result.plaso"; "/logs/worker-log.txt";
        "gs://bucket/result.plaso"]).

(** A task that reports its remote result before its local one. *)
Definition remote_first_task : task :=
  Task "t2" "PlasoTask" (Py.Present "Completed") (Py.Present true)
    (Py.Present ["gs://bucket/a.plaso"; "/out/b.plaso"]).

(** A task whose only result is a local file that is not on this host. *)
Definition missing_only_task : task :=
  Task "t3" "PlasoTask" (Py.Present "Completed") (Py.Present true)
    (Py.Present ["/missing/only.plaso"]).

(** A task without saved paths. *)
Definition none_task : task :=
  Task "t4" "GrepTask" (Py.Present "Failed") (Py.Present false) Py.PyNone.

(** A world in which the run yields [task_data]; every local path exists
    unless it is under [/missing/], and every copy lands in the staging
    directory unless the bucket is [gs://broken/]. *)
Definition world (task_data : list task) : World :=
  mkWorld
    (mkTurbiniaRequest "request-1" [] ∅)
    ev_disk_name
    (fun _ => None)
    (fun _ => None)
    (fun _ => inr task_data)
    (fun p => negb (Py.startswith p "/missing/"))
    (fun p dir =>
       if Py.startswith p "gs://broken/" then inl "copy failed"
       else inr (Some (dir +:+ "/copy.plaso"))).

Definition start : Sys := mkSys processor fresh_state [].

(** A task with a remote result after a good one and before another. *)
Definition broken_copy_task : task :=
  Task "t5" "PlasoTask" (Py.Present "Completed") (Py.Present true)
    (Py.Present
       ["gs://bucket/a.plaso"; "gs://broken/b.plaso";
        "gs://bucket/c.plaso"]).

(** A task with a local result that is not on this host, and another that
    is. *)
Definition missing_local_task : task :=
  Task "t6" "PlasoTask" (Py.Present "Completed") (Py.Present true)
    (Py.Present ["/missing/result.plaso"; "/out/result.plaso"]).

(** Snapshots for the polling loop. *)
Definition two_records_one_id : list task :=
  [Task "t1" "PlasoTask" (Py.Present "done") (Py.Present true) Py.PyNone;
   Task "t1" "PlasoTask" (Py.Present "done") (Py.Present true) Py.PyNone].

Definition one_pending : list task :=
  [Task "t1" "PlasoTask" Py.PyNone Py.PyNone Py.PyNone].

Definition one_done : list task :=
  [Task "t1" "PlasoTask" (Py.Present "done") (Py.Present false)
     (Py.Present ["gs://bucket/t1.plaso"])].

End Examples.

(** ** [TurbiniaProcessor.__init__] and [TurbiniaProcessor.setup] *)

Module Setup.

(** A [TurbiniaClient] object. *)
Inductive Client : Type :=
| TurbiniaClient.

(** The attributes of the object, each [None] until it is set. *)
Record Attributes : Type := mkAttributes {
  attr_client : option Client;
  attr_disk_name : option string;
  attr_instance : option string;
  attr_project : option string;
  attr_turbinia_region : option string;
  attr_turbinia_zone : option string;
  attr_output_path : option string
}.

(** [__init__] *)
Definition init : Attributes :=
  mkAttributes None None None None None None None.

(** The values of [turbinia_config] that [setup] reads once the
    configuration is loaded. *)
Record Config : Type := mkConfig {
  TURBINIA_REGION : string;
  PUBSUB_TOPIC : string;
  TURBINIA_PROJECT : string
}.

(** The answers of the collaborators of [setup]: [LoadConfig()], which
    leaves the configuration or raises, [tempfile.mkdtemp()], and
    [TurbiniaClient()], which may raise. *)
Record Collaborators : Type := mkCollaborators {
  LoadConfig : TurbiniaException + Config;
  mkdtemp : string;
  new_client : TurbiniaException + Client
}.

Inductive call : Type :=
| CallLoadConfig
| CallMkdtemp
| CallTurbiniaClient.

Record outcome : Type := mkOutcome {
  attributes : Attributes;
  state : State;
  calls : list call
}.

(** The message of the project check. *)
Definition project_mismatch (project configured : string) : string :=
  "Specified project " +:+ project
    +:+ " does not match Turbinia configured project " +:+ configured
    +:+ ". Use gcp_turbinia_import recipe to copy the disk "
    +:+ "into the same project.".

Definition setup (c : Collaborators)
    (disk_name project turbinia_zone : option string)
    (self : Attributes) (st : State) : outcome :=
  match project, turbinia_zone with
  | Some project_, Some zone_ =>
      let self :=
        mkAttributes (attr_client self) disk_name (attr_instance self)
          (Some project_) (attr_turbinia_region self) (Some zone_)
          (attr_output_path self) in
      match LoadConfig c with
      | inl e =>
          mkOutcome self (add_error (Exception e) true st) [CallLoadConfig]
      | inr config =>
          let self :=
            mkAttributes (attr_client self) (attr_disk_name self)
              (Some (PUBSUB_TOPIC config)) (attr_project self)
              (Some (TURBINIA_REGION config)) (attr_turbinia_zone self)
              (attr_output_path self) in
          if negb (String.eqb (TURBINIA_PROJECT config) project_)
          then
            mkOutcome self
              (add_error
                 (Message
                    (project_mismatch project_ (TURBINIA_PROJECT config)))
                 true st)
              [CallLoadConfig]
          else
            let self :=
              mkAttributes (attr_client self) (attr_disk_name self)
                (attr_instance self) (attr_project self)
                (attr_turbinia_region self) (attr_turbinia_zone self)
                (Some (mkdtemp c)) in
            match new_client c with
            | inl e =>
                mkOutcome self (add_error (Exception e) true st)
                  [CallLoadConfig; CallMkdtemp; CallTurbiniaClient]
            | inr client =>
                mkOutcome
                  (mkAttributes (Some client) (attr_disk_name self)
                     (attr_instance self) (attr_project self)
                     (attr_turbinia_region self) (attr_turbinia_zone self)
                     (attr_output_path self))
                  st
                  [CallLoadConfig; CallMkdtemp; CallTurbiniaClient]
            end
      end
  | _, _ =>
      mkOutcome self
        (add_error
           (Message
              "project or turbinia_zone are not all specified, bailing out")
           true st)
        []
  end.

(** The processor that [process] runs on, when every attribute is set. *)
Definition processor_of (self : Attributes) : option TurbiniaProcessor :=
  match attr_client self, attr_disk_name self, attr_instance self,
        attr_project self, attr_turbinia_region self,
        attr_turbinia_zone self, attr_output_path self with
  | Some _, Some disk_, Some instance_, Some project_, Some region_,
    Some zone_, Some path_ =>
      Some (mkTurbiniaProcessor disk_ instance_ project_ region_ zone_ path_)
  | _, _, _, _, _, _, _ => None
  end.

End Setup.

(** ** More vocabulary *)

(** The calls of a trace: its events other than prints. *)
Definition is_print (e : event) : bool :=
  match e with
  | Print _ => true
  | _ => false
  end.

Definition calls_of (tr : list event) : list event :=
  List.filter (fun e => negb (is_print e)) tr.

(** The request that [process] builds: the evidence of the disk, and the
    indicators as filter patterns when there are some. *)
Definition request_of (w : World) (self : TurbiniaProcessor) (st : State)
  : TurbiniaRequest :=
  mkTurbiniaRequest (request_id (new_request w))
    (evidence (new_request w)
       ++ [mkGoogleCloudDisk (disk_name (with_input_disk self st))
             (project self) (turbinia_zone self)])
    (match get_containers_ThreatIntelligence st with
     | [] => recipe (new_request w)
     | _ :: _ =>
         <["filter_patterns" :=
             indicator <$> get_containers_ThreatIntelligence st]>
           (recipe (new_request w))
     end).

(** The [request_dict] of [process]. *)
Definition coordinates_of (w : World) (self : TurbiniaProcessor)
  : request_dict :=
  mkRequestDict (instance self) (project self) (turbinia_region self)
    (request_id (new_request w)).

(** The report that [process] stores for a snapshot. *)
Definition report_of (task_data : list task) : container :=
  ReportContainer (new_Report "TurbiniaProcessor" (report_message task_data)).

Definition is_sleep (e : event) : bool :=
  match e with
  | Sleep _ => true
  | _ => false
  end.

(** The three tests that keep a saved path out of the listing of a task. *)
Definition listed (id path : string) : bool :=
  negb (Py.endswith path "worker-log.txt")
  && negb (Py.endswith path (id +:+ ".log"))
  && negb (Py.startswith path "/").

(** The saved paths of a task that are listed under it. *)
Definition shown_paths (t : task) : list string :=
  List.filter (listed (task_id t))
    (Py.or_empty (Py.get (task_saved_paths t))).

(** ** [TimesketchExporter]: the helpers of the export *)

Module Timesketch.

(** [containers.File] *)
Record File : Type := mkFile {
  file_name : string;
  file_path : string;
  file_description : option string
}.

(** [containers.TicketAttribute] *)
Record TicketAttribute : Type := mkTicketAttribute {
  attribute_type : string;
  attribute_name : string;
  attribute_value : string
}.

Definition _SKETCH_ATTRIBUTE_NAME : string := "Timesketch URL".

Definition dot : ascii := Ascii.ascii_of_nat 46.

(** ['.' in s] *)
Fixpoint has_dot (s : string) : bool :=
  match s with
  | EmptyString => false
  | String c s' => Ascii.eqb c dot || has_dot s'
  end.

(** [s.rpartition('.')[0]]: what comes before the last dot, and the empty
    string when there is no dot. *)
Fixpoint before_last_dot (s : string) : string :=
  match s with
  | EmptyString => EmptyString
  | String c s' =>
      if has_dot s' then String c (before_last_dot s') else EmptyString
  end.

(** [s.replace(old, new)] for one-character [old] and [new]. *)
Fixpoint replace (old new : ascii) (s : string) : string :=
  match s with
  | EmptyString => EmptyString
  | String c s' =>
      String (if Ascii.eqb c old then new else c) (replace old new s')
  end.

Definition space : ascii := Ascii.ascii_of_nat 32.
Definition dash : ascii := Ascii.ascii_of_nat 45.
Definition underscore : ascii := Ascii.ascii_of_nat 95.

(** What the two replacements make of a character. *)
Definition tidy (c : ascii) : ascii :=
  if Ascii.eqb c space || Ascii.eqb c dash then underscore else c.

(** [c in s] *)
Fixpoint contains (c : ascii) (s : string) : bool :=
  match s with
  | EmptyString => false
  | String a s' => Ascii.eqb a c || contains c s'
  end.

(** The name that [Process] derives from the name of a file. *)
Definition input_name (description : string) : string :=
  replace dash underscore
    (replace space underscore (before_last_dot description)).

(** The loop of [Process] filling [input_names]. *)
Definition input_names (files : list File) : list string :=
  foldl
    (fun names file_container =>
       let description := file_name file_container in
       if String.eqb description "" then names
       else names ++ [input_name description])
    [] files.

(** The name of the timeline, from the recipe of the state and its [File]
    containers. *)
Definition timeline_name (recipe : gmap string string) (files : list File)
  : string :=
  let recipe_name := default "no_recipe" (recipe !! "name") in
  match input_names files with
  | [] => recipe_name
  | names => recipe_name +:+ "_" +:+ String.concat "_" names
  end.

(** [_GetSketchIDFromAttributes], over the [TicketAttribute] containers of
    the state. [sketch_id_of value] stands for the regular expression search
    [re.search(r'sketch/(\d+)/', value)] followed by [int(group(1), 10)]. *)
Fixpoint _GetSketchIDFromAttributes (sketch_id_of : string -> option nat)
    (attributes : list TicketAttribute) : option nat :=
  match attributes with
  | [] => None
  | attribute :: rest =>
      if String.eqb (attribute_name attribute) _SKETCH_ATTRIBUTE_NAME
      then match sketch_id_of (attribute_value attribute) with
           | Some sketch_id => Some sketch_id
           | None => _GetSketchIDFromAttributes sketch_id_of rest
           end
      else _GetSketchIDFromAttributes sketch_id_of rest
  end.

(** The id that an attribute holds: the one of its value, for an attribute
    named [Timesketch URL]. *)
Definition held_sketch_id (sketch_id_of : string -> option nat)
    (a : TicketAttribute) : option nat :=
  if String.eqb (attribute_name a) _SKETCH_ATTRIBUTE_NAME
  then sketch_id_of (attribute_value a)
  else None.

(** The statuses for which [_WaitForTimelines] stops waiting for a
    timeline. *)
Definition finished (status : string) : bool :=
  bool_decide (status ∈ ["fail"; "ready"; "timeout"; "archived"]).

Inductive wait_event : Type :=
| WaitSleep (seconds : nat)
| GetSketch
| ListTimelines
| ReadStatus (timeline : nat).

(** [all(tl.status in [...] for tl in timelines)], with the statuses it
    reads: it stops at the first timeline that is not finished. *)
Fixpoint all_finished (status : nat -> string) (timelines : list nat)
  : bool * list wait_event :=
  match timelines with
  | [] => (true, [])
  | tl :: rest =>
      if finished (status tl)
      then let (b, evs) := all_finished status rest in
           (b, ReadStatus tl :: evs)
      else (false, [ReadStatus tl])
  end.

(** The [while True] loop of [_WaitForTimelines]: [status i tl] is the
    status of timeline [tl] as read by iteration [i], and the result tells
    whether the loop has left within [fuel] iterations. *)
Fixpoint wait_loop (status : nat -> nat -> string) (timelines : list nat)
    (fuel i : nat) : bool * list wait_event :=
  match fuel with
  | O => (false, [])
  | S fuel' =>
      let (done, reads) := all_finished (status i) timelines in
      if done then (true, reads)
      else let (b, evs) := wait_loop status timelines fuel' (S i) in
           (b, reads ++ WaitSleep 10 :: evs)
  end.

Definition is_wait_sleep (e : wait_event) : bool :=
  match e with
  | WaitSleep _ => true
  | _ => false
  end.

(** [all(...)] without the reads. *)
Definition all_done (status : nat -> string) (timelines : list nat) : bool :=
  forallb (fun tl => finished (status tl)) timelines.

Definition _WaitForTimelines (status : nat -> nat -> string)
    (timelines : list nat) (fuel : nat) : bool * list wait_event :=
  let (b, evs) := wait_loop status timelines fuel 0 in
  (b, WaitSleep 5 :: GetSketch :: ListTimelines :: evs).

End Timesketch.

(** ** More sample data *)

Module MoreExamples.

(** The task of the sample run, failed, under another id and name. *)
Definition failed_plaso_task : task :=
  Task "t9" "PsortTask" (Py.Present "Failed") (Py.Present false)
    (Py.Present
       ["/out/result.plaso"; "/logs/worker-log.txt";
        "gs://bucket/result.plaso"]).

Definition config : Setup.Config :=
  Setup.mkConfig "us-central1" "turbinia" "project-a".

Definition collaborators : Setup.Collaborators :=
  Setup.mkCollaborators (inr config) "/tmp/turbinia"
    (inr Setup.TurbiniaClient).

(** A world in which waiting for the request raises. *)
Definition raising_world : World :=
  mkWorld
    (mkTurbiniaRequest "request-1" [] ∅)
    ev_disk_name
    (fun _ => None)
    (fun _ => Some "Turbinia is not reachable")
    (fun _ => inr [])
    (fun _ => true)
    (fun _ _ => inr None).

End MoreExamples.

(** * Facts *)

(** ** Strings *)

Module PyFacts.
Import Py.

Lemma append_assoc (a b c : string) : (a +:+ b) +:+ c = a +:+ b +:+ c.
Proof.
  induction a as [|x a IH]; [done|].
  change (String x (a +:+ b) +:+ c = String x (a +:+ b +:+ c)).
  change (String x ((a +:+ b) +:+ c) = String x (a +:+ b +:+ c)).
  by rewrite IH.
Qed.

Lemma append_nil_r (a : string) : a +:+ "" = a.
Proof.
  induction a as [|x a IH]; [done|].
  change (String x (a +:+ "") = String x a). by rewrite IH.
Qed.

Lemma endswith_refl s : endswith s s = true.
Proof. destruct s; cbn [endswith]; by rewrite String.eqb_refl. Qed.

Lemma endswith_app s suffix :
  endswith s suffix = true <-> exists front, s = front +:+ suffix.
Proof.
  split.
  - induction s as [|a s IH]; cbn [endswith].
    + rewrite orb_false_r. intros ->%String.eqb_eq. by exists "".
    + intros [->%String.eqb_eq|H]%orb_true_iff; [by exists ""|].
      destruct (IH H) as [front ->]. by exists (String a front).
  - intros [front ->]. induction front as [|a front IH]; [apply endswith_refl|].
    change (String a front +:+ suffix) with (String a (front +:+ suffix)).
    cbn [endswith]. by rewrite IH, orb_true_r.
Qed.

Lemma last_char_app front s :
  s <> "" -> last_char (front +:+ s) = last_char s.
Proof.
  intros Hs. induction front as [|a front IH]; [done|].
  change (String a front +:+ s) with (String a (front +:+ s)).
  cbn [last_char]. rewrite IH.
  destruct (front +:+ s) eqn:Heq; [|done].
  destruct front; [done|discriminate].
Qed.

Lemma endswith_last_char s suffix :
  endswith s suffix = true -> suffix <> "" -> last_char s = last_char suffix.
Proof. intros [front ->]%endswith_app Hne. by apply last_char_app. Qed.

(** A path that ends like a log does not end in [.plaso]. *)
Lemma log_not_plaso path :
  is_log path -> endswith path ".plaso" = false.
Proof.
  intros Hlog. apply not_true_iff_false. intros Hplaso.
  apply endswith_last_char in Hplaso; [|done].
  destruct Hlog as [Hlog|[id Hlog]];
    apply endswith_last_char in Hlog.
  - rewrite Hplaso in Hlog. discriminate.
  - done.
  - rewrite (last_char_app id ".log") in Hlog by done.
    rewrite Hplaso in Hlog. discriminate.
  - by destruct id.
Qed.
End PyFacts.

(** ** The polling loop *)

Module PollerFacts.
Import Poller.

Lemma tasks_by_id_snoc l t :
  tasks_by_id (l ++ [t]) = <[task_id t := t]> (tasks_by_id l).
Proof. unfold tasks_by_id. by rewrite foldl_app. Qed.

Lemma tasks_by_id_dom l :
  dom (tasks_by_id l) = list_to_set (task_id <$> l).
Proof.
  induction l as [|t l IH] using rev_ind; [apply dom_empty_L|].
  rewrite tasks_by_id_snoc, dom_insert_L, IH, fmap_app, list_to_set_app_L.
  simpl. set_solver.
Qed.

Lemma tasks_by_id_lookup l i t :
  tasks_by_id l !! i = Some t -> t ∈ l /\ task_id t = i.
Proof.
  induction l as [|u l IH] using rev_ind; [done|].
  rewrite tasks_by_id_snoc. intros H.
  destruct (decide (task_id u = i)) as [<-|Hne].
  - rewrite lookup_insert_eq in H. simplify_eq. set_solver.
  - rewrite lookup_insert_ne in H by done. set_solver.
Qed.

Lemma tasks_by_id_NoDup l t :
  NoDup (task_id <$> l) -> t ∈ l -> tasks_by_id l !! task_id t = Some t.
Proof.
  induction l as [|u l IH] using rev_ind; [set_solver|].
  rewrite fmap_app, NoDup_app. simpl. intros (Hl & Hdisj & _) Hin.
  rewrite tasks_by_id_snoc.
  apply elem_of_app in Hin as [Hin|Hin].
  - rewrite lookup_insert_ne; [by apply IH|].
    intros Heq. apply (Hdisj (task_id t)); [|set_solver].
    apply list_elem_of_fmap. eauto.
  - apply list_elem_of_singleton in Hin as ->. by rewrite lookup_insert_eq.
Qed.

Lemma classify_spec (m : gmap string task) i :
  (i ∈ (classify m).1 <->
     exists k t, m !! k = Some t /\ task_id t = i /\ has_result t = true)
  /\ (i ∈ (classify m).2 <->
     exists k t, m !! k = Some t /\ task_id t = i /\ has_result t = false).
Proof.
  unfold classify.
  apply (map_fold_weak_ind (fun r m =>
    (i ∈ r.1 <-> exists k t, m !! k = Some t /\ task_id t = i /\ has_result t = true)
    /\ (i ∈ r.2 <-> exists k t, m !! k = Some t /\ task_id t = i /\ has_result t = false))).
  - split; (split; [set_solver|]); intros (k & t & H & _); by rewrite lookup_empty in H.
  - intros k x m' r Hk [IH1 IH2].
    assert (forall b, (exists k' t, <[k:=x]> m' !! k' = Some t /\ task_id t = i /\ has_result t = b)
              <-> ((task_id x = i /\ has_result x = b)
                   \/ exists k' t, m' !! k' = Some t /\ task_id t = i /\ has_result t = b)) as Hins.
    { intros b. split.
      - intros (k' & t & H & Hi & Hb).
        destruct (decide (k = k')) as [<-|Hne].
        + rewrite lookup_insert_eq in H. simplify_eq. by left.
        + rewrite lookup_insert_ne in H by done. right. eauto.
      - intros [[Hi Hb]|(k' & t & H & Hi & Hb)].
        + exists k, x. by rewrite lookup_insert_eq.
        + exists k', t. rewrite lookup_insert_ne; [done|]. congruence. }
    rewrite !Hins. destruct (has_result x) eqn:Hx; simpl.
    + rewrite elem_of_union, elem_of_singleton, IH1, IH2. naive_solver.
    + rewrite elem_of_union, elem_of_singleton, IH1, IH2. naive_solver.
Qed.

Lemma elem_of_completed l i :
  i ∈ completed_tasks l <->
  exists t, tasks_by_id l !! i = Some t /\ has_result t = true.
Proof.
  unfold completed_tasks. rewrite (proj1 (classify_spec _ i)). split.
  - intros (k & t & H & Hi & Hb). exists t.
    destruct (tasks_by_id_lookup _ _ _ H) as [_ Hk]. by simplify_eq.
  - intros (t & H & Hb). exists i, t.
    destruct (tasks_by_id_lookup _ _ _ H) as [_ Hk]. done.
Qed.

Lemma elem_of_pending l i :
  i ∈ pending_tasks l <->
  exists t, tasks_by_id l !! i = Some t /\ has_result t = false.
Proof.
  unfold pending_tasks. rewrite (proj2 (classify_spec _ i)). split.
  - intros (k & t & H & Hi & Hb). exists t.
    destruct (tasks_by_id_lookup _ _ _ H) as [_ Hk]. by simplify_eq.
  - intros (t & H & Hb). exists i, t.
    destruct (tasks_by_id_lookup _ _ _ H) as [_ Hk]. done.
Qed.

Lemma completed_subseteq l :
  completed_tasks l ⊆ list_to_set (task_id <$> l).
Proof.
  intros i (t & H & _)%elem_of_completed.
  rewrite <- tasks_by_id_dom. apply elem_of_dom. eauto.
Qed.

Lemma size_list_to_set_le (ids : list string) :
  size (list_to_set ids : gset string) <= length ids.
Proof.
  induction ids as [|x ids IH]; [by rewrite list_to_set_nil, size_empty|].
  rewrite list_to_set_cons; cbn [length].
  pose proof (size_union_alt {[x]} (list_to_set ids : gset string)) as H.
  rewrite H, size_singleton.
  pose proof (subseteq_size (list_to_set ids ∖ {[x]}) (list_to_set ids : gset string)).
  assert (size (list_to_set ids ∖ {[x]} : gset string) <= size (list_to_set ids : gset string)).
  { apply subseteq_size. set_solver. }
  lia.
Qed.

Lemma size_list_to_set_NoDup (ids : list string) :
  size (list_to_set ids : gset string) = length ids -> NoDup ids.
Proof.
  induction ids as [|x ids IH]; [constructor|].
  rewrite list_to_set_cons; cbn [length].
  intros Hsz. pose proof (size_list_to_set_le ids) as Hle.
  destruct (decide (x ∈ ids)) as [Hin|Hin].
  - assert ({[x]} ∪ list_to_set ids = (list_to_set ids : gset string)) as Heq
      by set_solver.
    rewrite Heq in Hsz. lia.
  - constructor; [done|]. apply IH.
    rewrite size_union, size_singleton in Hsz by set_solver. lia.
Qed.

Lemma fmap_NoDup_inj (l : list task) t u :
  NoDup (task_id <$> l) -> t ∈ l -> u ∈ l -> task_id t = task_id u -> t = u.
Proof.
  intros Hnd Ht Hu Heq.
  pose proof (tasks_by_id_NoDup l t Hnd Ht) as H1.
  pose proof (tasks_by_id_NoDup l u Hnd Hu) as H2.
  rewrite Heq in H1. congruence.
Qed.

(** The exit test holds exactly on the non-empty snapshots whose ids are
    pairwise distinct and whose tasks all carry a result. *)
Lemma all_completed_spec l :
  all_completed l = true <->
  l <> [] /\ NoDup (task_id <$> l) /\ forall t, t ∈ l -> has_result t = true.
Proof.
  unfold all_completed.
  rewrite andb_true_iff, Nat.eqb_eq, negb_true_iff, bool_decide_eq_false.
  split.
  - intros [Hsz Hne].
    pose proof (completed_subseteq l) as Hsub.
    pose proof (size_list_to_set_le (task_id <$> l)) as Hle.
    rewrite length_fmap in Hle.
    pose proof (subseteq_size _ _ Hsub) as Hle'.
    assert (size (list_to_set (task_id <$> l) : gset string) = length (task_id <$> l)) as Hsz'
      by (rewrite length_fmap; lia).
    pose proof (size_list_to_set_NoDup _ Hsz') as Hnd.
    assert (completed_tasks l = list_to_set (task_id <$> l)) as Heq.
    { apply set_subseteq_size_eq; [done|]. rewrite length_fmap in Hsz'. lia. }
    split; [|split; [done|]].
    + intros ->. apply Hne. apply set_eq. intros i.
      rewrite elem_of_completed. unfold tasks_by_id. simpl.
      split; [intros (t & H & _); by rewrite lookup_empty in H|set_solver].
    + intros t Ht.
      assert (task_id t ∈ completed_tasks l) as Hin.
      { rewrite Heq. apply elem_of_list_to_set, list_elem_of_fmap. eauto. }
      apply elem_of_completed in Hin as (u & Hu & Hres).
      rewrite (tasks_by_id_NoDup l t Hnd Ht) in Hu. by simplify_eq.
  - intros (Hne & Hnd & Hall).
    assert (completed_tasks l = list_to_set (task_id <$> l)) as Heq.
    { apply set_eq. intros i. split; [apply completed_subseteq|].
      intros (t & -> & Ht)%elem_of_list_to_set%list_elem_of_fmap.
      apply elem_of_completed. exists t. split; [by apply tasks_by_id_NoDup|auto]. }
    rewrite Heq. split.
    + rewrite size_list_to_set by done. by rewrite length_fmap.
    + destruct l as [|t l]; [done|]. simpl. set_solver.
Qed.

Lemma loop_returns poll dt fuel : forall i tot,
  returned (loop poll dt fuel i tot) = true ->
  exists k, k < fuel /\ polls (loop poll dt fuel i tot) = S (i + k)
    /\ all_completed (poll (i + k)) = true
    /\ forall j, j < k -> all_completed (poll (i + j)) = false.
Proof.
  induction fuel as [|fuel IH]; intros i tot; [done|]. cbn [loop].
  destruct (all_completed (poll i)) eqn:Hdone.
  - intros _. exists 0. rewrite Nat.add_0_r.
    split_and!; [lia|done|done|]. intros j Hj. lia.
  - cbn [add_events returned polls].
    intros (k & Hk & Hp & Hd & Hbefore)%IH.
    exists (S k). replace (i + S k) with (S i + k) by lia.
    split_and!; [lia|done|done|].
    intros [|j] Hj; [by rewrite Nat.add_0_r|].
    replace (i + S j) with (S i + j) by lia. apply Hbefore. lia.
Qed.

Lemma loop_enough_fuel poll dt k : forall fuel i tot,
  all_completed (poll (i + k)) = true -> k < fuel ->
  returned (loop poll dt fuel i tot) = true.
Proof.
  induction k as [|k IH]; intros [|fuel] i tot Hdone Hfuel; try lia.
  - cbn [loop]. rewrite Nat.add_0_r in Hdone. by rewrite Hdone.
  - cbn [loop]. destruct (all_completed (poll i)); [done|].
    cbn [add_events returned]. apply IH; [|lia].
    by replace (S i + k) with (i + S k) by lia.
Qed.

Lemma loop_never poll dt :
  (forall n, all_completed (poll n) = false) ->
  forall fuel i tot, returned (loop poll dt fuel i tot) = false.
Proof.
  intros Hnever fuel. induction fuel as [|fuel IH]; intros i tot; [done|].
  cbn [loop]. rewrite Hnever. apply IH.
Qed.

Lemma loop_running poll dt fuel : forall i tot,
  returned (loop poll dt fuel i tot) = false ->
  polls (loop poll dt fuel i tot) = i + fuel.
Proof.
  induction fuel as [|fuel IH]; intros i tot; cbn [loop].
  - intros _. cbn. lia.
  - destruct (all_completed (poll i)); [done|].
    cbn [add_events returned polls]. intros ->%IH. lia.
Qed.

Lemma terminates_iff poll dt :
  terminates poll dt <-> exists n, all_completed (poll n) = true.
Proof.
  split.
  - intros (fuel & Hr). apply loop_returns in Hr as (k & _ & _ & Hk & _).
    eauto.
  - intros [n Hn]. exists (S n). apply (loop_enough_fuel poll dt n); [done|lia].
Qed.

(** The events of the loop are those of its iterations, one after the
    other: the progress report of each, then the sleep, or the closing
    line for the one that returns. *)
Lemma loop_trace poll dt fuel : forall i,
  let r := loop poll dt fuel i (total_at poll i) in
  trace r =
    if returned r
    then flat_map (iteration_events poll dt) (seq i (polls r - 1 - i))
         ++ (Print <$> emitted_at poll (polls r - 1))
         ++ [Print ("All " +:+ Py.format_d (length (poll (polls r - 1)))
                      +:+ " Tasks completed")]
    else flat_map (iteration_events poll dt) (seq i (polls r - i)).
Proof.
  induction fuel as [|fuel IH]; intros i; cbn [loop].
  - cbn. by rewrite Nat.sub_diag.
  - destruct (all_completed (poll i)) eqn:Hdone.
    + cbn [returned polls trace].
      replace (S i - 1 - i) with 0 by lia. replace (S i - 1) with i by lia.
      done.
    + change (update_total (total_at poll i) (poll i))
        with (total_at poll (S i)).
      specialize (IH (S i)). cbn zeta in IH.
      cbn [add_events returned polls trace]. rewrite IH.
      destruct (returned (loop poll dt fuel (S i) (total_at poll (S i))))
        eqn:Hret.
      * apply loop_returns in Hret as (k & _ & Hp & _). rewrite Hp.
        replace (S (S i + k) - 1 - i) with (S (S (S i + k) - 1 - S i))
          by lia.
        cbn [seq flat_map]. unfold iteration_events at 2.
        by rewrite <- !app_assoc.
      * apply loop_running in Hret. rewrite Hret.
        replace (S i + fuel - i) with (S (S i + fuel - S i)) by lia.
        cbn [seq flat_map]. unfold iteration_events at 2.
        by rewrite <- !app_assoc.
Qed.

Lemma size_completed_0 l :
  size (completed_tasks l) = 0 <-> completed_tasks l = ∅.
Proof. rewrite size_empty_iff. by unfold_leibniz. Qed.

Lemma reports_spec tot l :
  reports tot l = true <->
  tot < size (completed_tasks l) \/ size (completed_tasks l) = 0.
Proof.
  unfold reports.
  by rewrite orb_true_iff, Nat.ltb_lt, bool_decide_eq_true, size_completed_0.
Qed.

Lemma progress_report_nonempty l : progress_report l <> [].
Proof. done. Qed.

Lemma emitted_nonempty tot l : emitted tot l <> [] <-> reports tot l = true.
Proof.
  unfold emitted. destruct (reports tot l); [|naive_solver].
  split; [done|]. intros _. apply progress_report_nonempty.
Qed.

(** After an iteration [total_completed] is at least the count it saw. *)
Lemma total_at_ge poll n :
  size (completed_tasks (poll n)) <= total_at poll (S n).
Proof.
  cbn [total_at]. unfold update_total.
  destruct (reports _ _) eqn:Hrep; [done|].
  apply not_true_iff_false in Hrep. rewrite reports_spec in Hrep. lia.
Qed.

(** While the counts never decrease, [total_completed] is the count of
    the previous iteration. *)
Lemma total_at_monotone poll n :
  (forall k, k < n ->
     size (completed_tasks (poll k)) <= size (completed_tasks (poll (S k)))) ->
  total_at poll (S n) = size (completed_tasks (poll n)).
Proof.
  induction n as [|n IH]; intros Hmono.
  - cbn [total_at]. unfold update_total.
    destruct (reports _ _) eqn:Hrep; [done|].
    apply not_true_iff_false in Hrep. rewrite reports_spec in Hrep. lia.
  - change (total_at poll (S (S n)))
      with (update_total (total_at poll (S n)) (poll (S n))).
    rewrite IH by (intros k Hk; apply Hmono; lia).
    unfold update_total. destruct (reports _ _) eqn:Hrep; [done|].
    apply not_true_iff_false in Hrep. rewrite reports_spec in Hrep.
    specialize (Hmono n). lia.
Qed.

Lemma elem_of_print_tasks (tasks : gmap string task) (ids : gset string) i t :
  i ∈ ids -> tasks !! i = Some t ->
  (" " +:+ task_name t +:+ " (" +:+ task_id t +:+ ")") ∈ print_tasks tasks ids.
Proof.
  intros Hi Ht. unfold print_tasks. apply list_elem_of_bind.
  exists i. split; [|by apply elem_of_elements].
  rewrite Ht. cbn. apply list_elem_of_here.
Qed.

(** The exit test counts ids, not records: two records of one snapshot
    that share an id are counted once, and a snapshot that repeats an id
    never passes the test, whatever the state of its tasks. *)
Example repeated_id_never_returns :
  let poll := fun _ : nat => Examples.two_records_one_id in
  (forall t, t ∈ poll 0 -> has_result t = true)
  /\ ~ terminates poll 60.
Proof.
  split.
  - intros t Ht. unfold Examples.two_records_one_id in Ht. set_solver.
  - rewrite terminates_iff. intros [n Hn]. vm_compute in Hn. done.
Qed.

(** The exit test, as a count. *)
Lemma all_completed_count l :
  all_completed l = true <->
  size (completed_tasks l) = length l /\ length l <> 0.
Proof.
  unfold all_completed.
  rewrite andb_true_iff, Nat.eqb_eq, negb_true_iff, bool_decide_eq_false.
  split.
  - intros [Hsz Hne]. split; [done|]. intros Hlen.
    apply Hne. apply size_completed_0. lia.
  - intros [Hsz Hlen]. split; [done|]. intros Hempty.
    rewrite Hempty, size_empty in Hsz. lia.
Qed.

(** The loop of [display_task_progress] returns iff some polled snapshot is
    non-empty, has pairwise distinct task ids and only tasks whose
    ['successful'] entry is set; it returns at the first such snapshot. *)
Lemma termination_spec poll dt :
  (terminates poll dt <->
     exists n, poll n <> [] /\ NoDup (task_id <$> poll n)
               /\ forall t, t ∈ poll n -> has_result t = true)
  /\ (forall fuel,
        returned (display_task_progress poll dt fuel) = true ->
        exists n, polls (display_task_progress poll dt fuel) = S n
          /\ all_completed (poll n) = true
          /\ forall m, m < n -> all_completed (poll m) = false)
  /\ ((forall n, all_completed (poll n) = false) ->
      forall fuel, returned (display_task_progress poll dt fuel) = false).
Proof.
  split_and!.
  - rewrite terminates_iff. by setoid_rewrite all_completed_spec.
  - intros fuel Hr. apply loop_returns in Hr as (k & _ & Hp & Hk & Hbefore).
    exists k. by cbn in Hp, Hk, Hbefore.
  - intros Hnever fuel. by apply loop_never.
Qed.

(** C1: the task records of a snapshot are keyed by id, one record for each
    task. On snapshots whose records have pairwise distinct ids, the loop of
    [display_task_progress] returns iff some polled snapshot is non-empty
    and every task in it has its ['successful'] entry set. For each
    snapshot this is the same as: its number of completed tasks equals its
    number of tasks, and that number is not zero. When the loop returns,
    the last snapshot polled is the first one for which this holds; if it
    holds for no polled snapshot, the loop is still running after any
    number of iterations. *)
Theorem C1_termination poll dt :
  (forall n, NoDup (task_id <$> poll n)) ->
  (terminates poll dt <->
     exists n, poll n <> [] /\ forall t, t ∈ poll n -> has_result t = true)
  /\ (forall n,
        size (completed_tasks (poll n)) = length (poll n)
        /\ length (poll n) <> 0
        <-> poll n <> [] /\ forall t, t ∈ poll n -> has_result t = true)
  /\ (forall fuel,
        returned (display_task_progress poll dt fuel) = true ->
        exists n, polls (display_task_progress poll dt fuel) = S n
          /\ size (completed_tasks (poll n)) = length (poll n)
          /\ length (poll n) <> 0
          /\ (forall t, t ∈ poll n -> has_result t = true)
          /\ forall m, m < n ->
               ~ (size (completed_tasks (poll m)) = length (poll m)
                  /\ length (poll m) <> 0))
  /\ ((forall n, ~ (size (completed_tasks (poll n)) = length (poll n)
                    /\ length (poll n) <> 0)) ->
      forall fuel, returned (display_task_progress poll dt fuel) = false).
Proof.
  intros Hdistinct.
  destruct (termination_spec poll dt) as (Hiff & Hreturn & Hnever).
  split_and!.
  - rewrite Hiff. split.
    + intros (n & Hne & _ & Hall). eauto.
    + intros (n & Hne & Hall). exists n. auto.
  - intros n. rewrite <- all_completed_count, all_completed_spec.
    specialize (Hdistinct n). tauto.
  - intros fuel Hr. apply Hreturn in Hr as (n & Hp & Hn & Hbefore).
    exists n. split; [done|].
    pose proof Hn as (_ & _ & Hall)%all_completed_spec.
    apply all_completed_count in Hn as [Hsz Hlen].
    split_and!; [done..|].
    intros m Hm Hcount%all_completed_count.
    rewrite (Hbefore m Hm) in Hcount. done.
  - intros Hno fuel. apply Hnever. intros n.
    apply not_true_iff_false. intros Hn%all_completed_count.
    by apply (Hno n).
Qed.

(** C1 on a task that is pending for two polls and done at the third. *)
Lemma C1_witness :
  let poll := fun n => if (n <? 2)%nat then Examples.one_pending
                       else Examples.one_done in
  let dt := 60 in
  (forall n, NoDup (task_id <$> poll n))
  /\ (terminates poll dt <->
        exists n, poll n <> [] /\ forall t, t ∈ poll n -> has_result t = true)
  /\ (forall n,
        size (completed_tasks (poll n)) = length (poll n)
        /\ length (poll n) <> 0
        <-> poll n <> [] /\ forall t, t ∈ poll n -> has_result t = true)
  /\ (forall fuel,
        returned (display_task_progress poll dt fuel) = true ->
        exists n, polls (display_task_progress poll dt fuel) = S n
          /\ size (completed_tasks (poll n)) = length (poll n)
          /\ length (poll n) <> 0
          /\ (forall t, t ∈ poll n -> has_result t = true)
          /\ forall m, m < n ->
               ~ (size (completed_tasks (poll m)) = length (poll m)
                  /\ length (poll m) <> 0))
  /\ ((forall n, ~ (size (completed_tasks (poll n)) = length (poll n)
                    /\ length (poll n) <> 0)) ->
      forall fuel, returned (display_task_progress poll dt fuel) = false).
Proof.
  intros poll dt.
  assert (forall n, NoDup (task_id <$> poll n)) as H1.
  { intros n. subst poll. cbn beta.
    destruct (n <? 2)%nat; apply NoDup_singleton. }
  exact (conj H1 (C1_termination poll dt H1)).
Defined.

(** C3, as stated, fails: while no task is completed, a snapshot that
    repeats the previous one is reported again. *)
Lemma C3_counterexample :
  let poll := fun _ : nat => Examples.one_pending in
  poll 1 = poll 0
  /\ ~ completed_count poll 0 < completed_count poll 1
  /\ emitted_at poll 1 <> [].
Proof. split; [done|]. split; [vm_compute; lia|]. by vm_compute. Qed.

(** C3 (amended): iteration [n] of the loop prints a progress report iff
    its completed count exceeds [total_completed], the count of the last
    report, or is zero. So the first iteration always reports; a later one
    reports only if the count has strictly increased since the previous
    iteration or is zero, and does report an increase whenever the counts
    have never decreased; an iteration whose snapshot repeats the previous
    one, with at least one completed task, prints nothing. A report names
    every completed and every pending task of the snapshot by name and
    id. *)
Theorem C3_progress poll n :
  (emitted_at poll n <> [] <->
     total_at poll n < completed_count poll n \/ completed_count poll n = 0)
  /\ emitted_at poll 0 <> []
  /\ (emitted_at poll (S n) <> [] ->
      completed_count poll n < completed_count poll (S n)
      \/ completed_count poll (S n) = 0)
  /\ ((forall k, k < n -> completed_count poll k <= completed_count poll (S k)) ->
      completed_count poll n < completed_count poll (S n) ->
      emitted_at poll (S n) <> [])
  /\ (poll (S n) = poll n -> completed_count poll (S n) <> 0 ->
      emitted_at poll (S n) = [])
  /\ (emitted_at poll n <> [] ->
      forall i t, tasks_by_id (poll n) !! i = Some t ->
        (" " +:+ task_name t +:+ " (" +:+ task_id t +:+ ")")
          ∈ emitted_at poll n).
Proof.
  unfold emitted_at, completed_count.
  split_and!.
  - by rewrite emitted_nonempty, reports_spec.
  - rewrite emitted_nonempty, reports_spec. cbn [total_at]. lia.
  - rewrite emitted_nonempty, reports_spec.
    pose proof (total_at_ge poll n). lia.
  - intros Hmono Hinc. rewrite emitted_nonempty, reports_spec.
    rewrite (total_at_monotone poll n Hmono). by left.
  - intros Heq Hne. rewrite Heq in Hne |- *.
    destruct (emitted _ _) eqn:Hem; [done|exfalso].
    assert (emitted (total_at poll (S n)) (poll n) <> []) as Hrep
      by (by rewrite Hem).
    rewrite emitted_nonempty, reports_spec in Hrep.
    pose proof (total_at_ge poll n). lia.
  - intros Hrep i t Ht. apply emitted_nonempty in Hrep.
    unfold emitted. rewrite Hrep. unfold progress_report.
    destruct (has_result t) eqn:Hres.
    + do 2 apply list_elem_of_further. apply elem_of_app. left.
      apply (elem_of_print_tasks _ _ i); [|done].
      apply elem_of_completed. eauto.
    + do 2 apply list_elem_of_further. apply elem_of_app. right.
      apply list_elem_of_further.
      apply (elem_of_print_tasks _ _ i); [|done].
      apply elem_of_pending. eauto.
Qed.

(** A scripted run: pending, pending again, then done. *)
Example three_polls :
  let poll := fun n => if (n <? 2)%nat then Examples.one_pending
                       else Examples.one_done in
  display_task_progress poll 60 5 =
    mkResult true 3
      [Print "Task status update (completed: 0 | pending: 1)";
       Print "Completed tasks:"; Print "Pending tasks:";
       Print " PlasoTask (t1)"; Sleep 60;
       Print "Task status update (completed: 0 | pending: 1)";
       Print "Completed tasks:"; Print "Pending tasks:";
       Print " PlasoTask (t1)"; Sleep 60;
       Print "Task status update (completed: 1 | pending: 0)";
       Print "Completed tasks:"; Print " PlasoTask (t1)";
       Print "   gs://bucket/t1.plaso"; Print "Pending tasks:";
       Print "All 1 Tasks completed"].
Proof. by vm_compute. Qed.

Lemma display_task_progress_trace poll dt fuel :
  let r := display_task_progress poll dt fuel in
  trace r =
    if returned r
    then flat_map (iteration_events poll dt) (seq 0 (polls r - 1))
         ++ (Print <$> emitted_at poll (polls r - 1))
         ++ [Print ("All " +:+ Py.format_d (length (poll (polls r - 1)))
                      +:+ " Tasks completed")]
    else flat_map (iteration_events poll dt) (seq 0 (polls r)).
Proof.
  pose proof (loop_trace poll dt fuel 0) as H. cbn zeta in H.
  by rewrite !Nat.sub_0_r in H.
Qed.

End PollerFacts.

(** ** The paths found in the Turbinia output *)

Section FindPlaso.

Lemma foldl_keep paths : forall found,
  foldl keep_plaso found paths =
    (found.1 ++ List.filter is_local_plaso paths,
     found.2 ++ List.filter is_gs_plaso paths).
Proof.
  induction paths as [|p paths IH]; intros [l g]; cbn [foldl List.filter].
  - by rewrite !app_nil_r.
  - rewrite IH. unfold keep_plaso.
    destruct (is_local_plaso p), (is_gs_plaso p); cbn [fst snd];
      by rewrite <- ?app_assoc.
Qed.

Lemma find_plaso_filter task_data :
  find_plaso task_data =
    (List.filter is_local_plaso (saved_paths task_data),
     List.filter is_gs_plaso (saved_paths task_data)).
Proof.
  unfold find_plaso, saved_paths.
  assert (forall found,
    foldl (fun found t =>
             foldl keep_plaso found (Py.or_empty (Py.get (task_saved_paths t))))
      found task_data =
    (found.1 ++ List.filter is_local_plaso
                  (t ← task_data; Py.or_empty (Py.get (task_saved_paths t))),
     found.2 ++ List.filter is_gs_plaso
                  (t ← task_data; Py.or_empty (Py.get (task_saved_paths t)))))
    as H.
  { induction task_data as [|t task_data IH]; intros [l g]; cbn [foldl].
    - by rewrite !app_nil_r.
    - rewrite IH, foldl_keep. cbn [fst snd mbind list_bind].
      by rewrite !List.filter_app, !app_assoc. }
  apply H.
Qed.

Lemma local_paths_filter task_data :
  local_paths task_data = List.filter is_local_plaso (saved_paths task_data).
Proof. unfold local_paths. by rewrite find_plaso_filter. Qed.

Lemma gs_paths_filter task_data :
  gs_paths task_data = List.filter is_gs_plaso (saved_paths task_data).
Proof. unfold gs_paths. by rewrite find_plaso_filter. Qed.

Lemma elem_of_saved_paths task_data path :
  path ∈ saved_paths task_data <->
  exists t, t ∈ task_data
    /\ path ∈ Py.or_empty (Py.get (task_saved_paths t)).
Proof. unfold saved_paths. rewrite list_elem_of_bind. naive_solver. Qed.

Lemma elem_of_local_paths task_data path :
  path ∈ local_paths task_data <->
  path ∈ saved_paths task_data /\ is_local_plaso path = true.
Proof.
  by rewrite local_paths_filter, !list_elem_of_In, List.filter_In.
Qed.

Lemma elem_of_gs_paths task_data path :
  path ∈ gs_paths task_data <->
  path ∈ saved_paths task_data /\ is_gs_plaso path = true.
Proof.
  by rewrite gs_paths_filter, !list_elem_of_In, List.filter_In.
Qed.

End FindPlaso.

(** ** The steps of [process] *)

Section Steps.
Context (w : World).

Lemma existing_spec paths : forall s,
  existing w paths s =
    (Value (List.filter (path_exists w) paths),
     mkSys (self_of s) (state_of s)
       (trace_of s ++ (PathExists <$> paths))).
Proof.
  induction paths as [|p paths IH]; intros [self st tr].
  - cbn. by rewrite app_nil_r.
  - cbn [existing]. unfold bind at 1. cbn [emit].
    unfold bind at 1. rewrite IH. cbn.
    rewrite <- app_assoc. by destruct (path_exists w p).
Qed.

Lemma copied_inl dir path e :
  copy_from w path dir = inl e -> copied w dir path = None.
Proof. unfold copied. by intros ->. Qed.

Lemma not_fetch_fails dir path :
  ~ fetch_fails w dir path -> exists r, copy_from w path dir = inr r.
Proof.
  unfold fetch_fails. destruct (copy_from w path dir) as [e|r]; [|eauto].
  intros H. exfalso. eauto.
Qed.

(** One turn of the loop of [fetch] when the copy does not raise. *)
Lemma fetch_cons_inr label path rest self st tr r :
  copy_from w path (_output_path self) = inr r ->
  fetch w label (path :: rest) (mkSys self st tr) =
    fetch w label rest
      (mkSys self
         (set_output
            (output st
               ++ ((fun q => (label, q))
                     <$> option_list (copied w (_output_path self) path)))
            st)
         (tr ++ [CopyFrom path (_output_path self)])).
Proof.
  intros Hr. cbn [fetch]. unfold bind at 1. cbn [get_self self_of].
  unfold bind at 1. unfold try_except, call_with. unfold bind at 1.
  cbn [emit self_of state_of trace_of]. rewrite Hr. cbn [ret].
  unfold copied. rewrite Hr.
  destruct r as [q|]; [destruct (String.eqb q "")|]; unfold bind at 1;
    cbn [ret update_state self_of state_of trace_of option_list fmap
         list_fmap]; try done.
  all: destruct st; unfold set_output; cbn; by rewrite app_nil_r.
Qed.

(** The loop of [fetch] when no copy raises. *)
Lemma fetch_ok label paths : forall self st tr,
  (forall p, p ∈ paths -> ~ fetch_fails w (_output_path self) p) ->
  fetch w label paths (mkSys self st tr) =
    (Value tt,
     mkSys self
       (set_output
          (output st
             ++ ((fun q => (label, q))
                   <$> omap (copied w (_output_path self)) paths))
          st)
       (tr ++ ((fun p => CopyFrom p (_output_path self)) <$> paths))).
Proof.
  induction paths as [|p paths IH]; intros self st tr Hok.
  - destruct st. cbn. by rewrite !app_nil_r.
  - destruct (not_fetch_fails (_output_path self) p) as [r Hr];
      [apply Hok; set_solver|].
    rewrite (fetch_cons_inr _ _ _ _ _ _ _ Hr).
    rewrite IH by (intros q Hq; apply Hok; set_solver).
    destruct st. unfold set_output. cbn. rewrite <- !app_assoc.
    by destruct (copied w (_output_path self) p).
Qed.

(** The loop of [fetch] at the first copy that raises. *)
Lemma fetch_fail label pre : forall path post e self st tr,
  (forall p, p ∈ pre -> ~ fetch_fails w (_output_path self) p) ->
  copy_from w path (_output_path self) = inl e ->
  fetch w label (pre ++ path :: post) (mkSys self st tr) =
    (Return,
     mkSys self
       (add_error (Exception e) true
          (set_output
             (output st
                ++ ((fun q => (label, q))
                      <$> omap (copied w (_output_path self)) pre))
             st))
       (tr ++ ((fun p => CopyFrom p (_output_path self))
                 <$> (pre ++ [path])))).
Proof.
  induction pre as [|p pre IH]; intros path post e self st tr Hok He.
  - cbn [app fetch]. unfold bind at 1. cbn [get_self self_of].
    unfold bind at 1. unfold try_except, call_with. unfold bind at 1.
    cbn [emit self_of state_of trace_of]. rewrite He.
    destruct st. cbn. by rewrite app_nil_r.
  - destruct (not_fetch_fails (_output_path self) p) as [r Hr];
      [apply Hok; set_solver|].
    cbn [app]. rewrite (fetch_cons_inr _ _ _ _ _ _ _ Hr).
    rewrite (IH path post e) by (try done; intros q Hq; apply Hok; set_solver).
    destruct st. unfold add_error, set_output. cbn. rewrite <- !app_assoc.
    by destruct (copied w (_output_path self) p).
Qed.

(** Either no copy raises, or there is a first one that does. *)
Lemma first_failure dir paths :
  (forall p, p ∈ paths -> ~ fetch_fails w dir p)
  \/ exists pre path post e,
       paths = pre ++ path :: post
       /\ (forall p, p ∈ pre -> ~ fetch_fails w dir p)
       /\ copy_from w path dir = inl e.
Proof.
  induction paths as [|p paths IH]; [left; set_solver|].
  destruct (copy_from w p dir) as [e|r] eqn:Hp.
  - right. exists [], p, paths, e. set_solver.
  - destruct IH as [Hok|(pre & path & post & e & -> & Hpre & He)].
    + left. intros q [->|Hq]%elem_of_cons; [|by apply Hok].
      intros [e He]. congruence.
    + right. exists (p :: pre), path, post, e. split; [done|]. split; [|done].
      intros q [->|Hq]%elem_of_cons; [|by apply Hpre].
      intros [e' He']. congruence.
Qed.

(** There is one first copy that raises. *)
Lemma first_failure_unique dir pre path post e pre' path' post' e' :
  pre ++ path :: post = pre' ++ path' :: post' ->
  (forall p, p ∈ pre -> ~ fetch_fails w dir p) ->
  copy_from w path dir = inl e ->
  (forall p, p ∈ pre' -> ~ fetch_fails w dir p) ->
  copy_from w path' dir = inl e' ->
  pre = pre' /\ path = path' /\ post = post'.
Proof.
  revert pre'. induction pre as [|p pre IH]; intros [|p' pre'] Heq Hok He Hok' He'.
  - cbn in Heq. by injection Heq as -> ->.
  - cbn in Heq. injection Heq as -> _. exfalso.
    apply (Hok' p'); [set_solver|by exists e].
  - cbn in Heq. injection Heq as -> _. exfalso.
    apply (Hok path'); [set_solver|by exists e'].
  - cbn in Heq. injection Heq as -> Heq.
    destruct (IH pre' Heq) as (-> & -> & ->); [| | | |done].
    + intros q Hq. apply Hok. set_solver.
    + done.
    + intros q Hq. apply Hok'. set_solver.
    + done.
Qed.

(** *** [collect], case by case *)

(** No [.plaso] file among the saved paths. *)
Lemma collect_none task_data s :
  local_paths task_data = [] -> gs_paths task_data = [] ->
  collect w task_data s =
    (Return,
     mkSys (self_of s)
       (add_error (Message "No .plaso files found in Turbinia output.") true
          (state_of s))
       (trace_of s)).
Proof.
  intros Hl Hg. destruct s as [self st tr]. unfold collect.
  unfold bind at 1. cbn [get_self self_of]. rewrite Hl, Hg. reflexivity.
Qed.

(** Some [.plaso] file, and no copy raises. *)
Lemma collect_ok task_data s :
  let dir := _output_path (self_of s) in
  let out := (fun q => (timeline_label (self_of s), q))
               <$> retained w dir task_data in
  ~ (local_paths task_data = [] /\ gs_paths task_data = []) ->
  (forall p, p ∈ gs_paths task_data -> ~ fetch_fails w dir p) ->
  collect w task_data s =
    (Value tt,
     mkSys (self_of s)
       (mkState (input (state_of s)) out
          (errors (state_of s)
             ++ match out with
                | [] => [(Message "No .plaso files could be found.", true)]
                | _ :: _ => []
                end)
          (store (state_of s)))
       (trace_of s
          ++ (PathExists <$> local_paths task_data)
          ++ ((fun p => CopyFrom p dir) <$> gs_paths task_data))).
Proof.
  intros dir out Hsome Hok. destruct s as [self st tr]. unfold collect.
  unfold bind at 1. cbn [get_self self_of state_of trace_of] in *.
  unfold bind at 1.
  assert ((match local_paths task_data, gs_paths task_data with
           | [], [] =>
               update_state
                 (add_error
                    (Message "No .plaso files found in Turbinia output.")
                    true) ;; return_
           | _, _ => ret tt
           end) (mkSys self st tr) = (Value tt, mkSys self st tr)) as ->.
  { destruct (local_paths task_data), (gs_paths task_data); try done.
    exfalso. by apply Hsome. }
  unfold bind at 1. rewrite existing_spec.
  cbn [self_of state_of trace_of]. unfold bind at 1.
  cbn [update_state self_of state_of trace_of]. unfold bind at 1.
  rewrite fetch_ok by done. unfold bind at 1.
  cbn [get_state self_of state_of trace_of set_output output].
  subst out. unfold retained. subst dir. rewrite fmap_app.
  destruct st as [i o e c]. cbn [input output errors store set_output].
  rewrite <- app_assoc.
  unfold set_output, update_state, add_error, ret.
  cbn [input output errors store self_of state_of trace_of].
  destruct (_ ++ _); cbn [self_of state_of trace_of input errors store output];
    rewrite ?app_nil_r; reflexivity.
Qed.

(** Some [.plaso] file, and a first copy that raises. *)
Lemma collect_fail task_data s pre path post e :
  let dir := _output_path (self_of s) in
  gs_paths task_data = pre ++ path :: post ->
  (forall p, p ∈ pre -> ~ fetch_fails w dir p) ->
  copy_from w path dir = inl e ->
  collect w task_data s =
    (Return,
     mkSys (self_of s)
       (mkState (input (state_of s))
          ((fun q => (timeline_label (self_of s), q))
             <$> (List.filter (path_exists w) (local_paths task_data)
                    ++ omap (copied w dir) pre))
          (errors (state_of s) ++ [(Exception e, true)])
          (store (state_of s)))
       (trace_of s
          ++ (PathExists <$> local_paths task_data)
          ++ ((fun p => CopyFrom p dir) <$> (pre ++ [path])))).
Proof.
  intros dir Hgs Hok He. destruct s as [self st tr]. unfold collect.
  unfold bind at 1. cbn [get_self self_of state_of trace_of] in *.
  unfold bind at 1.
  assert ((match local_paths task_data, gs_paths task_data with
           | [], [] =>
               update_state
                 (add_error
                    (Message "No .plaso files found in Turbinia output.")
                    true) ;; return_
           | _, _ => ret tt
           end) (mkSys self st tr) = (Value tt, mkSys self st tr)) as ->.
  { rewrite Hgs. destruct (local_paths task_data), pre; done. }
  unfold bind at 1. rewrite existing_spec.
  cbn [self_of state_of trace_of]. unfold bind at 1.
  cbn [update_state self_of state_of trace_of]. unfold bind at 1.
  rewrite Hgs, (fetch_fail _ _ _ _ e) by done.
  subst dir. rewrite fmap_app.
  destruct st as [i o e' c]. unfold set_output, add_error.
  cbn [input output errors store self_of state_of trace_of].
  by rewrite !fmap_app, <- !app_assoc.
Qed.

End Steps.

(** *** [dispatch] and [process] *)

Section Dispatch.
Context (w : World).

(** [dispatch] selects the disk, sends one request, built from the
    evidence and the indicators, and ends with the task data or with the
    exception recorded as a critical error. *)
Lemma dispatch_spec self st tr :
  let self' := with_input_disk self st in
  exists request new,
    ((exists task_data,
        dispatch w (mkSys self st tr) =
          (Value task_data, mkSys self' st (tr ++ new)))
     \/ (exists e,
        dispatch w (mkSys self st tr) =
          (Return,
           mkSys self' (add_error (Exception e) true st) (tr ++ new))))
    /\ request_id request = request_id (new_request w)
    /\ evidence request =
         evidence (new_request w)
           ++ [mkGoogleCloudDisk (disk_name self') (project self)
                 (turbinia_zone self)]
    /\ recipe request =
         match get_containers_ThreatIntelligence st with
         | [] => recipe (new_request w)
         | _ :: _ =>
             <["filter_patterns" :=
                 indicator <$> get_containers_ThreatIntelligence st]>
               (recipe (new_request w))
         end
    /\ SendRequest request ∈ new
    /\ (forall r, SendRequest r ∈ new -> r = request)
    /\ Forall (fun e => ~ is_collect_event e) new.
Proof.
  cbv [dispatch with_input_disk bind get_self get_state update_self
       update_state emit print ret return_ raise call call_with try_except].
  cbn [self_of state_of trace_of].
  destruct (input st) as [|[lbl disk] rest];
    [|destruct (String.eqb (disk_name self) "")];
    cbn [self_of state_of trace_of set_disk_name disk_name project
         turbinia_zone instance turbinia_region];
    (destruct (get_containers_ThreatIntelligence st) as [|ti tis] eqn:Hti);
    cbn [self_of state_of trace_of request_id evidence recipe];
    (match goal with
     | |- context [send_request w ?r] =>
         exists r; destruct (send_request w r) as [e1|]
     end);
    cbn [self_of state_of trace_of request_id evidence recipe];
    try (match goal with
     | |- context [wait_for_request w ?r] =>
         destruct (wait_for_request w r) as [e2|]
     end);
    cbn [self_of state_of trace_of request_id evidence recipe];
    try (match goal with
     | |- context [get_task_data w ?r] =>
         destruct (get_task_data w r) as [e3|task_data]
     end);
    cbn [self_of state_of trace_of request_id evidence recipe].
  all: eexists; split_and!;
    [rewrite <- ?app_assoc; cbn [app];
     first [left; eexists; reflexivity | right; eexists; reflexivity]
    |reflexivity|reflexivity|reflexivity
    |repeat first [apply list_elem_of_here | apply list_elem_of_further]
    |intros r Hr;
     repeat (apply elem_of_cons in Hr as [Hr|Hr]; [by simplify_eq|]);
     by apply elem_of_nil in Hr
    |repeat (apply Forall_cons_2; [by intros []|]); apply Forall_nil_2].
Qed.

(** [process] is [dispatch], then, on task data, [publish] and
    [collect]. *)
Lemma process_cases self st :
  let self' := with_input_disk self st in
  exists request new,
    ((exists e,
        run_process w self st =
          mkSys self' (add_error (Exception e) true st) new)
     \/ (exists task_data,
        run_process w self st =
          run_collect w task_data
            (mkSys self'
               (store_container
                  (ReportContainer
                     (new_Report "TurbiniaProcessor"
                        (report_message task_data)))
                  st)
               (new ++ [Print (report_message task_data)]))))
    /\ request_id request = request_id (new_request w)
    /\ evidence request =
         evidence (new_request w)
           ++ [mkGoogleCloudDisk (disk_name self') (project self)
                 (turbinia_zone self)]
    /\ recipe request =
         match get_containers_ThreatIntelligence st with
         | [] => recipe (new_request w)
         | _ :: _ =>
             <["filter_patterns" :=
                 indicator <$> get_containers_ThreatIntelligence st]>
               (recipe (new_request w))
         end
    /\ SendRequest request ∈ new
    /\ (forall r, SendRequest r ∈ new -> r = request)
    /\ Forall (fun e => ~ is_collect_event e) new.
Proof.
  intros self'.
  destruct (dispatch_spec self st []) as (request & new & Hd & Hrest).
  exists request, new. split; [|done].
  destruct Hd as [[task_data Hd]|[e Hd]]; [right; exists task_data|left; exists e];
    unfold run_process, process; unfold bind at 1; rewrite Hd; [|done].
  unfold run_collect. by unfold bind at 1.
Qed.

(** The three ways [collect] can go. *)
Lemma collect_cases task_data s :
  let dir := _output_path (self_of s) in
  (local_paths task_data = [] /\ gs_paths task_data = [])
  \/ (~ (local_paths task_data = [] /\ gs_paths task_data = [])
      /\ forall p, p ∈ gs_paths task_data -> ~ fetch_fails w dir p)
  \/ (exists pre path post e,
        gs_paths task_data = pre ++ path :: post
        /\ (forall p, p ∈ pre -> ~ fetch_fails w dir p)
        /\ copy_from w path dir = inl e).
Proof.
  intros dir.
  destruct (first_failure w dir (gs_paths task_data)) as [Hok|Hfail];
    [|by right; right].
  destruct (local_paths task_data) as [|p l] eqn:Hl;
    [destruct (gs_paths task_data) as [|p l] eqn:Hg|].
  - by left.
  - right; left. split; [|done]. by intros [_ ?].
  - right; left. split; [|done]. by intros [? _].
Qed.

(** [collect] only adds file-system checks and copies to the trace. *)
Lemma collect_trace task_data s :
  exists more,
    trace_of (run_collect w task_data s) = trace_of s ++ more
    /\ Forall is_collect_event more.
Proof.
  unfold run_collect.
  destruct (collect_cases task_data s)
    as [[Hl Hg]|[[Hsome Hok]|(pre & path & post & e & Hgs & Hok & He)]].
  - rewrite collect_none by done. exists []. by rewrite app_nil_r.
  - rewrite collect_ok by done. eexists. split; [reflexivity|].
    apply Forall_app. split; apply Forall_fmap, Forall_true; by intros.
  - rewrite (collect_fail _ _ _ _ _ _ _ Hgs Hok He).
    eexists. split; [reflexivity|].
    apply Forall_app. split; apply Forall_fmap, Forall_true; by intros.
Qed.

End Dispatch.

(** ** The claims about [process] *)

Section Claims.
Context (w : World).

Lemma snoc_neq {A} (l : list A) x : l ++ [x] <> l.
Proof.
  intros H. apply (f_equal length) in H. rewrite length_app in H.
  cbn in H. lia.
Qed.

(** C2 (amended): when some [.plaso] path is saved and no copy raises, the
    output holds, under one label and without deduplication, the local
    [.plaso] paths that exist, in discovery order (task order, then path
    order), followed by the copies of the remote [.plaso] paths, in
    discovery order. In particular one task with the saved paths
    [/out/result.plaso], [/logs/worker-log.txt], [gs://bucket/result.plaso],
    the local one existing and the copy succeeding, gives exactly two
    entries, the local one first. *)
Theorem C2_collection_order s :
  let dir := _output_path (self_of s) in
  let label := timeline_label (self_of s) in
  (forall task_data,
     ~ (local_paths task_data = [] /\ gs_paths task_data = []) ->
     (forall p, p ∈ gs_paths task_data -> ~ fetch_fails w dir p) ->
     output (state_of (run_collect w task_data s)) =
       ((fun q => (label, q))
          <$> List.filter (path_exists w)
                (List.filter is_local_plaso (saved_paths task_data)))
       ++ ((fun q => (label, q))
             <$> omap (copied w dir)
                   (List.filter is_gs_plaso (saved_paths task_data))))
  /\ (forall id name status successful staged,
        path_exists w "/out/result.plaso" = true ->
        copy_from w "gs://bucket/result.plaso" dir = inr (Some staged) ->
        staged <> "" ->
        output (state_of (run_collect w
          [Task id name status successful
             (Py.Present ["/out/result.plaso"; "/logs/worker-log.txt";
                          "gs://bucket/result.plaso"])] s)) =
          [(label, "/out/result.plaso"); (label, staged)]).
Proof.
  intros dir label.
  assert (forall task_data,
     ~ (local_paths task_data = [] /\ gs_paths task_data = []) ->
     (forall p, p ∈ gs_paths task_data -> ~ fetch_fails w dir p) ->
     output (state_of (run_collect w task_data s)) =
       ((fun q => (label, q))
          <$> List.filter (path_exists w)
                (List.filter is_local_plaso (saved_paths task_data)))
       ++ ((fun q => (label, q))
             <$> omap (copied w dir)
                   (List.filter is_gs_plaso (saved_paths task_data))))
    as Hgeneral.
  { intros task_data Hsome Hok. unfold run_collect.
    rewrite collect_ok by done. cbn [snd state_of output].
    unfold retained. by rewrite fmap_app, local_paths_filter, gs_paths_filter. }
  split; [done|].
  intros id name status successful staged Hexists Hcopy Hstaged.
  rewrite Hgeneral.
  - cbn. rewrite Hexists. unfold copied. fold dir. rewrite Hcopy.
    apply String.eqb_neq in Hstaged. by rewrite Hstaged.
  - by intros [? _].
  - intros p Hp. change (p ∈ ["gs://bucket/result.plaso"]) in Hp.
    apply list_elem_of_singleton in Hp as ->. intros [e He]. congruence.
Qed.

(** C4: when no copy raises and no artifact path is retained (no [.plaso]
    path is saved, or none survives the existence check and the copy),
    [collect] records the "no usable output" error as critical; and a run
    of [collect] that records no error leaves a non-empty output. *)
Theorem C4_no_artifacts task_data s :
  let dir := _output_path (self_of s) in
  let s' := run_collect w task_data s in
  ((forall p, p ∈ gs_paths task_data -> ~ fetch_fails w dir p) ->
   retained w dir task_data = [] ->
   exists e, no_artifacts_error e
     /\ errors (state_of s') = errors (state_of s) ++ [(e, true)])
  /\ (errors (state_of s') = errors (state_of s) ->
      output (state_of s') <> []).
Proof.
  intros dir s'. subst s'. unfold run_collect.
  destruct (collect_cases w task_data s)
    as [[Hl Hg]|[[Hsome Hok]|(pre & path & post & e & Hgs & Hok & He)]].
  - rewrite collect_none by done. cbn [snd state_of add_error errors].
    split; [|by intros ?%snoc_neq].
    intros _ _. eexists. split; [by left|done].
  - rewrite collect_ok by done. cbn [snd state_of errors output]. fold dir.
    split.
    + intros _ ->. cbn. eexists. split; [by right|done].
    + destruct (_ <$> retained w dir task_data); [by intros ?%snoc_neq|done].
  - rewrite (collect_fail _ _ _ _ _ _ _ Hgs Hok He).
    cbn [snd state_of errors output]. split; [|by intros ?%snoc_neq].
    intros Hnofail. exfalso. apply (Hnofail path); [|by exists e].
    rewrite Hgs. set_solver.
Qed.

(** C5: when the copy of a remote path raises, the copies of the remote
    paths before it having succeeded, [collect] returns at once: the
    exception is recorded as a critical error, it is the only error
    recorded, no later remote path is copied, and nothing else is done. *)
Theorem C5_fetch_failure task_data s pre path post e :
  let dir := _output_path (self_of s) in
  let label := timeline_label (self_of s) in
  gs_paths task_data = pre ++ path :: post ->
  (forall p, p ∈ pre -> ~ fetch_fails w dir p) ->
  copy_from w path dir = inl e ->
  collect w task_data s =
    (Return,
     mkSys (self_of s)
       (mkState (input (state_of s))
          ((fun q => (label, q))
             <$> (List.filter (path_exists w) (local_paths task_data)
                    ++ omap (copied w dir) pre))
          (errors (state_of s) ++ [(Exception e, true)])
          (store (state_of s)))
       (trace_of s
          ++ (PathExists <$> local_paths task_data)
          ++ ((fun p => CopyFrom p dir) <$> (pre ++ [path])))).
Proof.
  intros dir label Hgs Hok He.
  by apply (collect_fail w task_data s pre path post e).
Qed.

Lemma plaso_not_log path :
  Py.endswith path ".plaso" = true -> ~ is_log path.
Proof. intros Hp Hlog%PyFacts.log_not_plaso. congruence. Qed.


Lemma gs_plaso_not_log path : is_gs_plaso path = true -> ~ is_log path.
Proof. intros [_ H]%andb_true_iff. by apply plaso_not_log. Qed.

Lemma foldl_append {A} (f : A -> string) l : forall acc,
  foldl (fun message x => message +:+ f x) acc l = acc +:+ joined (f <$> l).
Proof.
  induction l as [|x l IH]; intros acc; cbn [foldl fmap list_fmap joined foldr].
  - by rewrite PyFacts.append_nil_r.
  - rewrite IH. apply PyFacts.append_assoc.
Qed.

Lemma joined_app front back :
  joined (front ++ back) = joined front +:+ joined back.
Proof.
  induction front as [|x front IH]; [done|].
  cbn [app joined foldr]. fold (joined (front ++ back)). fold (joined front).
  by rewrite IH, PyFacts.append_assoc.
Qed.



(** [collect] leaves the output as it is, or assigns it a list of pairs
    under the label. *)
Lemma collect_output task_data s :
  output (state_of (run_collect w task_data s)) = output (state_of s)
  \/ exists paths,
       output (state_of (run_collect w task_data s)) =
         (fun q => (timeline_label (self_of s), q)) <$> paths.
Proof.
  unfold run_collect.
  destruct (collect_cases w task_data s)
    as [[Hl Hg]|[[Hsome Hok]|(pre & src & post & e & Hgs & Hok & He)]].
  - rewrite collect_none by done. by left.
  - rewrite collect_ok by done. right. by eexists.
  - rewrite (collect_fail _ _ _ _ _ _ _ Hgs Hok He). right. by eexists.
Qed.


(** C7 (amended): a local [.plaso] path that does not exist is checked once
    for each time it is saved, and never again. The output is the list of
    the local paths that exist, followed by copies of remote paths: the
    missing path is not among the former, so that it is in the output only
    if some copy has that very name. The errors [collect] can record are the
    exception of a copy, and the error [No .plaso files could be found.] of
    an output that ends up empty. The latter is recorded, as a critical
    error, when no local path exists and there is no remote path, as when
    the missing path is the only artifact; with a non-empty output and no
    copy raising, no error is recorded. *)
Theorem C7_missing_local task_data s path :
  let dir := _output_path (self_of s) in
  let s' := run_collect w task_data s in
  path ∈ local_paths task_data ->
  path_exists w path = false ->
  (exists copies,
     trace_of s' =
       trace_of s ++ (PathExists <$> local_paths task_data) ++ copies
     /\ Forall (fun e => exists p, e = CopyFrom p dir) copies)
  /\ (forall label, (label, path) ∈ output (state_of s') ->
        exists src, src ∈ gs_paths task_data
          /\ copied w dir src = Some path)
  /\ (exists new,
        errors (state_of s') = errors (state_of s) ++ new
        /\ forall e critical, (e, critical) ∈ new ->
             (exists src x, src ∈ gs_paths task_data
                /\ copy_from w src dir = inl x /\ e = Exception x)
             \/ (e = Message "No .plaso files could be found."
                 /\ output (state_of s') = []))
  /\ ((forall p, p ∈ gs_paths task_data -> ~ fetch_fails w dir p) ->
      output (state_of s') <> [] ->
      errors (state_of s') = errors (state_of s))
  /\ (exists copies,
        output (state_of s') =
          (fun q => (timeline_label (self_of s), q))
            <$> (List.filter (path_exists w) (local_paths task_data)
                   ++ copies)
        /\ path ∉ List.filter (path_exists w) (local_paths task_data)
        /\ forall q, q ∈ copies ->
             exists src, src ∈ gs_paths task_data
               /\ copied w dir src = Some q)
  /\ ((forall p, p ∈ local_paths task_data -> path_exists w p = false) ->
      gs_paths task_data = [] ->
      output (state_of s') = []
      /\ errors (state_of s') =
           errors (state_of s)
             ++ [(Message "No .plaso files could be found.", true)]).
Proof.
  intros dir s' Hin Hmissing. subst s'. unfold run_collect.
  assert (~ (local_paths task_data = [] /\ gs_paths task_data = [])) as Hsome.
  { intros [Hl _]. rewrite Hl in Hin. by apply elem_of_nil in Hin. }
  assert (path ∉ List.filter (path_exists w) (local_paths task_data))
    as Hout.
  { intros [_ Hq]%list_elem_of_In%List.filter_In. congruence. }
  assert (forall l : list string,
            (forall p, p ∈ l -> path_exists w p = false) ->
            List.filter (path_exists w) l = []) as Hnone.
  { intros l. induction l as [|p l IH]; intros Hall; [done|].
    cbn [List.filter]. rewrite (Hall p) by set_solver.
    apply IH. intros q Hq. apply Hall. set_solver. }
  destruct (collect_cases w task_data s)
    as [?|[[_ Hok]|(pre & src & post & e & Hgs & Hok & He)]]; [done|..].
  - rewrite collect_ok by done. cbn [snd state_of trace_of errors output].
    fold dir. split_and!.
    + eexists. split; [reflexivity|].
      apply Forall_fmap, Forall_true. intros p. by exists p.
    + intros label (q & [= _ ->] & Hq)%list_elem_of_fmap.
      unfold retained in Hq. apply elem_of_app in Hq as [Hq|Hq].
      * apply list_elem_of_In, List.filter_In in Hq as [_ Hq]. congruence.
      * by apply list_elem_of_omap in Hq.
    + eexists. split; [reflexivity|]. intros e critical He.
      right. destruct (_ <$> retained w dir task_data);
        [|by apply elem_of_nil in He].
      apply list_elem_of_singleton in He. by simplify_eq.
    + intros _ Hne. destruct (_ <$> retained w dir task_data); [done|].
      by rewrite app_nil_r.
    + exists (omap (copied w dir) (gs_paths task_data)).
      split_and!; [done..|]. intros q Hq. by apply list_elem_of_omap in Hq.
    + intros Hall Hgs. unfold retained. rewrite (Hnone _ Hall), Hgs. done.
  - rewrite (collect_fail _ _ _ _ _ _ _ Hgs Hok He).
    cbn [snd state_of trace_of errors output]. fold dir. split_and!.
    + eexists. split; [reflexivity|].
      apply Forall_fmap, Forall_true. intros p. by exists p.
    + intros label (q & [= _ ->] & Hq)%list_elem_of_fmap.
      apply elem_of_app in Hq as [Hq|Hq].
      * apply list_elem_of_In, List.filter_In in Hq as [_ Hq]. congruence.
      * apply list_elem_of_omap in Hq as (u & Hu & Hcopied).
        exists u. split; [|done]. rewrite Hgs. set_solver.
    + eexists. split; [reflexivity|]. intros e' critical He'.
      apply list_elem_of_singleton in He'. simplify_eq. left.
      exists src, e. split_and!; [|done..]. rewrite Hgs. set_solver.
    + intros Hnofail. exfalso. apply (Hnofail src); [|by exists e].
      rewrite Hgs. set_solver.
    + exists (omap (copied w dir) pre). split_and!; [done..|].
      intros q (u & Hu & Hcopied)%list_elem_of_omap.
      exists u. split; [|done]. rewrite Hgs. set_solver.
    + intros _ Hnil. rewrite Hnil in Hgs. by destruct pre.
Qed.

(** C8: [process] sends one request, and its filter patterns are the
    indicators of the [ThreatIntelligence] containers of the state, as many
    and in the same order, the [i]-th pattern being the indicator of the
    [i]-th container; with no container the recipe is the one of a fresh
    request, which has no pattern. *)
Theorem C8_filter_patterns self st :
  let threatintel := get_containers_ThreatIntelligence st in
  let s' := run_process w self st in
  recipe (new_request w) !! "filter_patterns" = None ->
  (exists request, SendRequest request ∈ trace_of s')
  /\ forall request, SendRequest request ∈ trace_of s' ->
       filter_patterns request = indicator <$> threatintel
       /\ length (filter_patterns request) = length threatintel
       /\ forall i, filter_patterns request !! i
                    = indicator <$> threatintel !! i.
Proof.
  intros threatintel s' Hfresh. subst s'.
  destruct (process_cases w self st)
    as (request & new & Hrun & _ & _ & Hrecipe & Hsent & Honly & Hnew).
  assert (filter_patterns request = indicator <$> threatintel) as Hpatterns.
  { unfold filter_patterns. rewrite Hrecipe. fold threatintel.
    destruct threatintel; [by rewrite Hfresh|by rewrite lookup_insert_eq]. }
  assert (forall r, SendRequest r ∈ trace_of (run_process w self st) <->
                    SendRequest r ∈ new) as Htrace.
  { intros r. destruct Hrun as [[e ->]|[task_data ->]]; [done|].
    destruct (collect_trace w task_data
      (mkSys (with_input_disk self st)
         (store_container
            (ReportContainer
               (new_Report "TurbiniaProcessor" (report_message task_data)))
            st)
         (new ++ [Print (report_message task_data)])))
      as (more & -> & Hmore).
    cbn [trace_of]. rewrite !elem_of_app, list_elem_of_singleton.
    split; [|by auto]. intros [[?|?]|Hr]; [done|done|].
    by apply (proj1 (Forall_forall _ _) Hmore) in Hr. }
  split; [exists request; by apply Htrace|].
  intros r Hr%Htrace%Honly. subst r. split_and!; [done|..].
  - by rewrite Hpatterns, length_fmap.
  - intros i. by rewrite Hpatterns, list_lookup_fmap.
Qed.

Lemma project_with_input_disk self st :
  project (with_input_disk self st) = project self.
Proof.
  unfold with_input_disk. destruct (input st) as [|[? ?] ?]; [done|].
  by destruct (String.eqb _ _).
Qed.

(** C9: the label is the project and the disk name of the processor,
    joined by a dash; the disk is the one named in the evidence of the
    request that is sent; every pair that [process] puts in the output
    carries this one label; and the label does not depend on the answers
    of the collaborators, nor on the state beyond its input: two runs for
    the same processor and input derive the same label. *)
Theorem C9_label self st :
  let s' := run_process w self st in
  let label := project self +:+ "-" +:+ disk_name (self_of s') in
  timeline_label (self_of s') = label
  /\ (forall request, SendRequest request ∈ trace_of s' ->
        evidence request =
          evidence (new_request w)
            ++ [mkGoogleCloudDisk (disk_name (self_of s')) (project self)
                  (turbinia_zone self)])
  /\ (output (state_of s') = output st
      \/ forall entry, entry ∈ output (state_of s') -> entry.1 = label)
  /\ (forall w2 st2, input st2 = input st ->
        timeline_label (self_of (run_process w2 self st2))
        = timeline_label (self_of s')).
Proof.
  intros s' label.
  assert (forall w2 st2,
            self_of (run_process w2 self st2) = with_input_disk self st2)
    as Hself.
  { intros w2 st2.
    destruct (process_cases w2 self st2)
      as (request & new & [[e ->]|[task_data ->]] & _); [done|].
    unfold run_collect.
    destruct (collect_cases w2 task_data
      (mkSys (with_input_disk self st2)
         (store_container
            (ReportContainer
               (new_Report "TurbiniaProcessor" (report_message task_data)))
            st2)
         (new ++ [Print (report_message task_data)])))
      as [[Hl Hg]|[[Hsome Hok]|(pre & src & post & e & Hgs & Hok & He)]].
    - by rewrite collect_none.
    - by rewrite collect_ok.
    - by rewrite (collect_fail _ _ _ _ _ _ _ Hgs Hok He). }
  assert (timeline_label (self_of s') = label) as Hlabel.
  { subst label s'. unfold timeline_label.
    by rewrite Hself, project_with_input_disk. }
  split_and!; [done|..].
  - subst s' label. rewrite Hself.
    destruct (process_cases w self st)
      as (request & new & Hrun & _ & Hev & _ & _ & Honly & _).
    intros r Hr. assert (SendRequest r ∈ new) as Hnew.
    { destruct Hrun as [[e Hrun]|[task_data Hrun]]; rewrite Hrun in Hr;
        [done|].
      destruct (collect_trace w task_data
        (mkSys (with_input_disk self st)
           (store_container
              (ReportContainer
                 (new_Report "TurbiniaProcessor" (report_message task_data)))
              st)
           (new ++ [Print (report_message task_data)])))
        as (more & Hmore & Hevents).
      rewrite Hmore in Hr. cbn [trace_of] in Hr.
      rewrite !elem_of_app, list_elem_of_singleton in Hr.
      destruct Hr as [[?|?]|Hr]; [done|done|].
      by apply (proj1 (Forall_forall _ _) Hevents) in Hr. }
    by rewrite (Honly r Hnew).
  - rewrite <- Hlabel. subst s' label. rewrite Hself.
    destruct (process_cases w self st)
      as (request & new & [[e ->]|[task_data ->]] & _); [by left|].
    destruct (collect_output task_data
      (mkSys (with_input_disk self st)
         (store_container
            (ReportContainer
               (new_Report "TurbiniaProcessor" (report_message task_data)))
            st)
         (new ++ [Print (report_message task_data)])))
      as [->|[paths ->]]; [by left|right].
    by intros entry (q & -> & _)%list_elem_of_fmap.
  - intros w2 st2 Hinput. subst s'. rewrite !Hself.
    unfold with_input_disk. by rewrite Hinput.
Qed.

(** C10: a task whose [saved_paths] is [None] is treated, by the report
    pass and by the collection pass, like the same task with an empty list
    of saved paths. Its part of the report is one line: its name, its id in
    parentheses, a colon and its status ([No task status] when the task has
    none, [None] when it is [None]), then a newline; this line stands in the
    report between the parts of the tasks before and after it. It adds no
    path to the local or to the remote result paths, so that [collect] goes
    as if the task were not there. *)
Theorem C10_saved_paths_none (t : task) :
  let nl := String (Ascii.ascii_of_nat 10) EmptyString in
  let line :=
    task_name t +:+ " (" +:+ task_id t +:+ "): "
      +:+ match task_status t with
          | Py.Absent => "No task status"
          | Py.PyNone => "None"
          | Py.Present status => status
          end
      +:+ nl in
  let t' :=
    Task (task_id t) (task_name t) (task_status t) (task_successful t)
      (Py.Present []) in
  task_saved_paths t = Py.PyNone ->
  report_task t = line
  /\ (forall front back,
        report_message (front ++ t :: back) =
          ("Completed " +:+ Py.format_d (length (front ++ t :: back))
             +:+ " Turbinia tasks" +:+ nl)
            +:+ joined (report_task <$> front)
            +:+ line
            +:+ joined (report_task <$> back))
  /\ (forall front back,
        local_paths (front ++ t :: back) = local_paths (front ++ back)
        /\ gs_paths (front ++ t :: back) = gs_paths (front ++ back))
  /\ (forall front back s,
        collect w (front ++ t :: back) s = collect w (front ++ back) s)
  /\ (forall front back s,
        report_message (front ++ t :: back)
        = report_message (front ++ t' :: back)
        /\ collect w (front ++ t :: back) s
           = collect w (front ++ t' :: back) s).
Proof.
  intros nl line t' Hnone.
  assert (report_task t = line) as Hreport.
  { unfold report_task, status_line. rewrite Hnone.
    cbn [Py.get Py.or_empty report_paths]. rewrite PyFacts.append_nil_r.
    subst line nl. by destruct (task_status t). }
  assert (report_task t' = line) as Hreport'.
  { unfold report_task, status_line. subst t'.
    cbn [task_saved_paths task_name task_id task_status Py.get Py.or_empty
         report_paths].
    rewrite PyFacts.append_nil_r. subst line nl. by destruct (task_status t). }
  assert (forall (u : task) front back,
            Py.or_empty (Py.get (task_saved_paths u)) = [] ->
            find_plaso (front ++ u :: back) = find_plaso (front ++ back))
    as Hfind.
  { intros u front back Hu. rewrite !find_plaso_filter. unfold saved_paths.
    rewrite !bind_app. cbn [mbind list_bind]. by rewrite Hu. }
  assert (forall (u : task) front back,
            report_message (front ++ u :: back) =
              ("Completed " +:+ Py.format_d (length (front ++ t :: back))
                 +:+ " Turbinia tasks" +:+ nl)
                +:+ joined (report_task <$> front)
                +:+ report_task u
                +:+ joined (report_task <$> back)) as Hmessage.
  { intros u front back. unfold report_message, report_header.
    rewrite foldl_append, fmap_app, joined_app.
    cbn [fmap list_fmap joined foldr].
    by rewrite !length_app. }
  split_and!; [done|..].
  - intros front back. by rewrite Hmessage, Hreport.
  - intros front back. unfold local_paths, gs_paths.
    by rewrite (Hfind t) by (by rewrite Hnone).
  - intros front back s. unfold collect, local_paths, gs_paths.
    by rewrite (Hfind t) by (by rewrite Hnone).
  - intros front back s. split.
    + by rewrite !Hmessage, Hreport, Hreport'.
    + unfold collect, local_paths, gs_paths.
      rewrite (Hfind t) by (by rewrite Hnone).
      by rewrite (Hfind t') by done.
Qed.

End Claims.

(** ** Sample runs *)

(** C2, as stated, fails: a remote path saved before a local one comes
    after it in the output. *)
Lemma C2_counterexample :
  let w := Examples.world [Examples.remote_first_task] in
  let s := Examples.start in
  let label := "project-a-disk-1" in
  output (state_of (run_collect w [Examples.remote_first_task] s)) =
    [(label, "/out/b.plaso"); (label, "/tmp/turbinia/copy.plaso")]
  /\ in_discovery_order w (_output_path (self_of s))
       (timeline_label (self_of s)) [Examples.remote_first_task] =
    [(label, "/tmp/turbinia/copy.plaso"); (label, "/out/b.plaso")]
  /\ output (state_of (run_collect w [Examples.remote_first_task] s))
     <> in_discovery_order w (_output_path (self_of s))
          (timeline_label (self_of s)) [Examples.remote_first_task].
Proof. by vm_compute. Qed.

(** C5 on a run whose second copy raises. *)
Lemma C5_witness :
  let task_data := [Examples.broken_copy_task] in
  let w := Examples.world task_data in
  let s := Examples.start in
  let dir := "/tmp/turbinia" in
  gs_paths task_data =
    ["gs://bucket/a.plaso"] ++ "gs://broken/b.plaso" :: ["gs://bucket/c.plaso"]
  /\ (forall p, p ∈ ["gs://bucket/a.plaso"] -> ~ fetch_fails w dir p)
  /\ copy_from w "gs://broken/b.plaso" dir = inl "copy failed"
  /\ collect w task_data s =
       (Return,
        mkSys Examples.processor
          (mkState [] [("project-a-disk-1", "/tmp/turbinia/copy.plaso")]
             [(Exception "copy failed", true)]
             (store Examples.fresh_state))
          [CopyFrom "gs://bucket/a.plaso" dir;
           CopyFrom "gs://broken/b.plaso" dir]).
Proof.
  intros task_data w s dir.
  assert (gs_paths task_data =
            ["gs://bucket/a.plaso"]
              ++ "gs://broken/b.plaso" :: ["gs://bucket/c.plaso"]) as H1
    by reflexivity.
  assert (forall p, p ∈ ["gs://bucket/a.plaso"] -> ~ fetch_fails w dir p)
    as H2.
  { intros p Hp. apply list_elem_of_singleton in Hp. subst p.
    intros [e He]. vm_compute in He. discriminate He. }
  assert (copy_from w "gs://broken/b.plaso" dir = inl "copy failed") as H3
    by reflexivity.
  exact (conj H1 (conj H2 (conj H3
    (C5_fetch_failure w task_data s _ _ _ _ H1 H2 H3)))).
Defined.

(** C7, as stated, fails: when the missing local path is the only artifact
    of the run, a critical error is recorded. *)
Lemma C7_counterexample :
  let task_data := [Examples.missing_only_task] in
  let w := Examples.world task_data in
  let path := "/missing/only.plaso" in
  path ∈ local_paths task_data
  /\ path_exists w path = false
  /\ errors (state_of Examples.start) = []
  /\ errors (state_of (run_collect w task_data Examples.start)) =
       [(Message "No .plaso files could be found.", true)]
  /\ errors (state_of (run_process w Examples.processor Examples.fresh_state))
     = [(Message "No .plaso files could be found.", true)].
Proof.
  intros task_data w path.
  split; [apply list_elem_of_here|]. by vm_compute.
Qed.

(** C7 on a run with a local result that is not on this host. *)
Lemma C7_witness :
  let task_data := [Examples.missing_local_task] in
  let w := Examples.world task_data in
  let s := Examples.start in
  let path := "/missing/result.plaso" in
  let dir := "/tmp/turbinia" in
  let s' := run_collect w task_data s in
  path ∈ local_paths task_data
  /\ path_exists w path = false
  /\ (exists copies,
        trace_of s' =
          trace_of s ++ (PathExists <$> local_paths task_data) ++ copies
        /\ Forall (fun e => exists p, e = CopyFrom p dir) copies)
  /\ (forall label, (label, path) ∈ output (state_of s') ->
        exists src, src ∈ gs_paths task_data
          /\ copied w dir src = Some path)
  /\ (exists new,
        errors (state_of s') = errors (state_of s) ++ new
        /\ forall e critical, (e, critical) ∈ new ->
             (exists src x, src ∈ gs_paths task_data
                /\ copy_from w src dir = inl x /\ e = Exception x)
             \/ (e = Message "No .plaso files could be found."
                 /\ output (state_of s') = []))
  /\ ((forall p, p ∈ gs_paths task_data -> ~ fetch_fails w dir p) ->
      output (state_of s') <> [] ->
      errors (state_of s') = errors (state_of s))
  /\ (exists copies,
        output (state_of s') =
          (fun q => (timeline_label (self_of s), q))
            <$> (List.filter (path_exists w) (local_paths task_data)
                   ++ copies)
        /\ path ∉ List.filter (path_exists w) (local_paths task_data)
        /\ forall q, q ∈ copies ->
             exists src, src ∈ gs_paths task_data
               /\ copied w dir src = Some q)
  /\ ((forall p, p ∈ local_paths task_data -> path_exists w p = false) ->
      gs_paths task_data = [] ->
      output (state_of s') = []
      /\ errors (state_of s') =
           errors (state_of s)
             ++ [(Message "No .plaso files could be found.", true)]).
Proof.
  intros task_data w s path dir s'.
  assert (path ∈ local_paths task_data) as H1 by apply list_elem_of_here.
  assert (path_exists w path = false) as H2 by reflexivity.
  exact (conj H1 (conj H2 (C7_missing_local w task_data s path H1 H2))).
Defined.

(** C8 on a run with two indicators. *)
Lemma C8_witness :
  let w := Examples.world [Examples.plaso_task] in
  let self := Examples.processor in
  let st := Examples.fresh_state in
  let threatintel := get_containers_ThreatIntelligence st in
  let s' := run_process w self st in
  recipe (new_request w) !! "filter_patterns" = None
  /\ (exists request, SendRequest request ∈ trace_of s')
  /\ forall request, SendRequest request ∈ trace_of s' ->
       filter_patterns request = indicator <$> threatintel
       /\ length (filter_patterns request) = length threatintel
       /\ forall i, filter_patterns request !! i
                    = indicator <$> threatintel !! i.
Proof.
  intros w self st threatintel s'.
  assert (recipe (new_request w) !! "filter_patterns" = None) as H1
    by reflexivity.
  exact (conj H1 (C8_filter_patterns w self st H1)).
Defined.

(** C10 on a task without saved paths. *)
Lemma C10_witness :
  let t := Examples.none_task in
  let w := Examples.world [t] in
  let nl := String (Ascii.ascii_of_nat 10) EmptyString in
  let line := "GrepTask (t4): Failed" +:+ nl in
  let t' :=
    Task "t4" "GrepTask" (Py.Present "Failed") (Py.Present false)
      (Py.Present []) in
  task_saved_paths t = Py.PyNone
  /\ report_task t = line
  /\ (forall front back,
        report_message (front ++ t :: back) =
          ("Completed " +:+ Py.format_d (length (front ++ t :: back))
             +:+ " Turbinia tasks" +:+ nl)
            +:+ joined (report_task <$> front)
            +:+ line
            +:+ joined (report_task <$> back))
  /\ (forall front back,
        local_paths (front ++ t :: back) = local_paths (front ++ back)
        /\ gs_paths (front ++ t :: back) = gs_paths (front ++ back))
  /\ (forall front back s,
        collect w (front ++ t :: back) s = collect w (front ++ back) s)
  /\ (forall front back s,
        report_message (front ++ t :: back)
        = report_message (front ++ t' :: back)
        /\ collect w (front ++ t :: back) s
           = collect w (front ++ t' :: back) s).
Proof.
  intros t w nl line t'.
  assert (task_saved_paths t = Py.PyNone) as H1 by reflexivity.
  exact (conj H1 (C10_saved_paths_none w t H1)).
Defined.

(** The run of [process] on the task of C2: both results are collected,
    the local one first, and the report lists the remote one. *)
Example process_plaso_task :
  let w := Examples.world [Examples.plaso_task] in
  let s' := run_process w Examples.processor Examples.fresh_state in
  output (state_of s') =
    [("project-a-disk-1", "/out/result.plaso");
     ("project-a-disk-1", "/tmp/turbinia/copy.plaso")]
  /\ errors (state_of s') = []
  /\ module_name <$> omap (fun c => match c with
                                    | ReportContainer r => Some r
                                    | _ => None
                                    end) (store (state_of s'))
     = ["TurbiniaProcessor"].
Proof. by vm_compute. Qed.

(** The two runs that end without artifact: no [.plaso] path is saved, or
    the only one does not exist. *)
Example collect_nothing :
  let run task_data :=
    state_of (run_collect (Examples.world task_data) task_data Examples.start)
  in
  errors (run [Examples.none_task]) =
    [(Message "No .plaso files found in Turbinia output.", true)]
  /\ errors (run [Examples.missing_only_task]) =
       [(Message "No .plaso files could be found.", true)]
  /\ output (run [Examples.missing_only_task]) = [].
Proof. by vm_compute. Qed.

(** The report of a snapshot with a task without saved paths. *)
Example report_two_tasks :
  report_message [Examples.plaso_task; Examples.none_task] =
    "Completed 2 Turbinia tasks" +:+ newline
      +:+ "PlasoTask (t1): Completed" +:+ newline
      +:+ "  gs://bucket/result.plaso" +:+ newline
      +:+ "GrepTask (t4): Failed" +:+ newline.
Proof. by vm_compute. Qed.

(** * More of the code *)

(** ** More about [process] *)

Section ProcessRuns.
Context (w : World).

(** [dispatch], call by call: the request is sent, the run is waited for,
    the task data are asked for, and the first exception ends it. *)
Lemma dispatch_run self st :
  let self' := with_input_disk self st in
  let request := request_of w self st in
  let coordinates := coordinates_of w self in
  exists new,
    dispatch w (mkSys self st []) =
      match send_request w request with
      | Some e => (Return, mkSys self' (add_error (Exception e) true st) new)
      | None =>
          match wait_for_request w coordinates with
          | Some e =>
              (Return, mkSys self' (add_error (Exception e) true st) new)
          | None =>
              match get_task_data w coordinates with
              | inl e =>
                  (Return, mkSys self' (add_error (Exception e) true st) new)
              | inr task_data => (Value task_data, mkSys self' st new)
              end
          end
      end
    /\ calls_of new =
         SendRequest request ::
         match send_request w request with
         | Some _ => []
         | None =>
             WaitForRequest coordinates ::
             match wait_for_request w coordinates with
             | Some _ => []
             | None => [GetTaskData coordinates]
             end
         end.
Proof.
  cbv [dispatch request_of coordinates_of with_input_disk bind get_self
       get_state update_self update_state emit print ret return_ raise call
       call_with try_except].
  cbn [self_of state_of trace_of].
  destruct (input st) as [|[lbl disk] rest];
    [|destruct (String.eqb (disk_name self) "")];
    cbn [self_of state_of trace_of set_disk_name disk_name project
         turbinia_zone instance turbinia_region];
    (destruct (get_containers_ThreatIntelligence st) as [|ti tis] eqn:Hti);
    cbn [self_of state_of trace_of request_id evidence recipe];
    (match goal with
     | |- context [send_request w ?r] => destruct (send_request w r) as [e1|]
     end);
    cbn [self_of state_of trace_of request_id evidence recipe];
    try (match goal with
     | |- context [wait_for_request w ?r] =>
         destruct (wait_for_request w r) as [e2|]
     end);
    cbn [self_of state_of trace_of request_id evidence recipe];
    try (match goal with
     | |- context [get_task_data w ?r] =>
         destruct (get_task_data w r) as [e3|task_data]
     end);
    cbn [self_of state_of trace_of request_id evidence recipe app];
    (eexists; split; [reflexivity|reflexivity]).
Qed.

(** [process], as far as [dispatch] decides it. *)
Lemma process_run self st :
  let self' := with_input_disk self st in
  let request := request_of w self st in
  let coordinates := coordinates_of w self in
  exists new,
    run_process w self st =
      match send_request w request with
      | Some e => mkSys self' (add_error (Exception e) true st) new
      | None =>
          match wait_for_request w coordinates with
          | Some e => mkSys self' (add_error (Exception e) true st) new
          | None =>
              match get_task_data w coordinates with
              | inl e => mkSys self' (add_error (Exception e) true st) new
              | inr task_data =>
                  run_collect w task_data
                    (mkSys self' (store_container (report_of task_data) st)
                       (new ++ [Print (report_message task_data)]))
              end
          end
      end
    /\ calls_of new =
         SendRequest request ::
         match send_request w request with
         | Some _ => []
         | None =>
             WaitForRequest coordinates ::
             match wait_for_request w coordinates with
             | Some _ => []
             | None => [GetTaskData coordinates]
             end
         end.
Proof.
  intros self' request coordinates.
  destruct (dispatch_run self st) as (new & Hd & Hcalls).
  exists new. split; [|done].
  unfold run_process, process. unfold bind at 1. rewrite Hd.
  fold self' request coordinates.
  destruct (send_request w request); [done|].
  destruct (wait_for_request w coordinates); [done|].
  destruct (get_task_data w coordinates); [done|].
  unfold run_collect. by unfold bind at 1.
Qed.

Lemma calls_of_app tr1 tr2 : calls_of (tr1 ++ tr2) = calls_of tr1 ++ calls_of tr2.
Proof. apply List.filter_app. Qed.

Lemma calls_of_collect_events tr :
  Forall is_collect_event tr -> calls_of tr = tr.
Proof.
  induction 1 as [|e tr He _ IH]; [done|].
  unfold calls_of. cbn [List.filter]. fold (calls_of tr). rewrite IH.
  by destruct e.
Qed.

(** What [collect] adds to the state and to the calls, in all cases. *)
Lemma collect_effects task_data s :
  let dir := _output_path (self_of s) in
  let s' := run_collect w task_data s in
  self_of s' = self_of s
  /\ input (state_of s') = input (state_of s)
  /\ store (state_of s') = store (state_of s)
  /\ (exists more,
        trace_of s' = trace_of s ++ more
        /\ Forall is_collect_event more
        /\ (local_paths task_data = [] -> gs_paths task_data = [] ->
            more = [])
        /\ (~ (local_paths task_data = [] /\ gs_paths task_data = []) ->
            exists fetched,
              more = (PathExists <$> local_paths task_data)
                       ++ ((fun p => CopyFrom p dir) <$> fetched)
              /\ fetched `prefix_of` gs_paths task_data
              /\ ((forall p, p ∈ gs_paths task_data ->
                     ~ fetch_fails w dir p) ->
                  fetched = gs_paths task_data)
              /\ (forall pre path post e,
                    gs_paths task_data = pre ++ path :: post ->
                    (forall p, p ∈ pre -> ~ fetch_fails w dir p) ->
                    copy_from w path dir = inl e ->
                    fetched = pre ++ [path])))
  /\ (exists new,
        errors (state_of s') = errors (state_of s) ++ new
        /\ length new <= 1
        /\ (forall e critical, (e, critical) ∈ new -> critical = true)
        /\ (new = [] -> output (state_of s') <> [])).
Proof.
  intros dir s'. subst s'. unfold run_collect.
  destruct (collect_cases w task_data s)
    as [[Hl Hg]|[[Hsome Hok]|(pre & path & post & e & Hgs & Hok & He)]].
  - rewrite collect_none by done.
    cbn [snd self_of state_of trace_of add_error input store errors].
    split_and!; [done..| |].
    + exists []. rewrite app_nil_r. split_and!; [done|done|done|].
      intros Hsome. exfalso. by apply Hsome.
    + eexists. split_and!; [reflexivity|done| |done].
      intros e0 critical Hin. apply list_elem_of_singleton in Hin. by simplify_eq.
  - rewrite collect_ok by done.
    cbn [snd self_of state_of trace_of input store errors output]. fold dir.
    split_and!; [done..| |].
    + eexists. split_and!; [reflexivity| | |].
      * apply Forall_app. split; apply Forall_fmap, Forall_true; by intros.
      * intros Hl Hg. exfalso. by apply Hsome.
      * intros _. exists (gs_paths task_data). split_and!; [done..|].
        intros pre path post e Hgs _ He. exfalso.
        apply (Hok path); [|by exists e]. rewrite Hgs. set_solver.
    + destruct (_ <$> retained w dir task_data) eqn:Hout.
      * eexists. split_and!; [reflexivity|done| |done].
        intros e0 critical Hin. apply list_elem_of_singleton in Hin. by simplify_eq.
      * exists []. split_and!; [reflexivity|cbn; lia| |done].
        intros e critical []%elem_of_nil.
  - rewrite (collect_fail _ _ _ _ _ _ _ Hgs Hok He).
    cbn [snd self_of state_of trace_of input store errors output]. fold dir.
    split_and!; [done..| |].
    + eexists. split_and!; [reflexivity| | |].
      * apply Forall_app. split; apply Forall_fmap, Forall_true; by intros.
      * intros _ Hg. rewrite Hg in Hgs. by destruct pre.
      * intros _. exists (pre ++ [path]). split_and!; [done| | |].
        -- rewrite Hgs. exists post. by rewrite <- app_assoc.
        -- intros Hnofail. exfalso. apply (Hnofail path); [|by exists e].
           rewrite Hgs. set_solver.
        -- intros pre' path' post' e' Hgs' Hok' He'. rewrite Hgs in Hgs'.
           by destruct (first_failure_unique w dir _ _ _ _ _ _ _ _
                          Hgs' Hok He Hok' He') as (-> & -> & _).
    + eexists. split_and!; [reflexivity|done| |done].
      intros e0 critical Hin. apply list_elem_of_singleton in Hin. by simplify_eq.
Qed.

(** When the submission, the wait or the query of the task data raises,
    [process] makes no further call: the exception is recorded as a critical
    error and nothing else of the state changes, so that no report is stored
    and the output is left as it was. *)
Theorem process_dispatch_exception self st e :
  let request := request_of w self st in
  let coordinates := coordinates_of w self in
  let s' := run_process w self st in
  (send_request w request = Some e ->
   calls_of (trace_of s') = [SendRequest request]
   /\ state_of s' = add_error (Exception e) true st)
  /\ (send_request w request = None ->
      wait_for_request w coordinates = Some e ->
      calls_of (trace_of s') =
        [SendRequest request; WaitForRequest coordinates]
      /\ state_of s' = add_error (Exception e) true st)
  /\ (send_request w request = None ->
      wait_for_request w coordinates = None ->
      get_task_data w coordinates = inl e ->
      calls_of (trace_of s') =
        [SendRequest request; WaitForRequest coordinates;
         GetTaskData coordinates]
      /\ state_of s' = add_error (Exception e) true st).
Proof.
  intros request coordinates s'. subst s'.
  destruct (process_run self st) as (new & Hrun & Hcalls).
  fold request coordinates in Hrun, Hcalls.
  split_and!.
  - intros Hsend. rewrite Hsend in Hrun, Hcalls. by rewrite Hrun.
  - intros Hsend Hwait. rewrite Hsend, Hwait in Hrun, Hcalls. by rewrite Hrun.
  - intros Hsend Hwait Hget. rewrite Hsend, Hwait in Hcalls.
    rewrite Hsend, Hwait, Hget in Hrun. by rewrite Hrun.
Qed.

(** When the task data are obtained, [process] has made exactly three calls
    to the client, in the order send, wait, query, with the coordinates of
    the request it sent; it stores one report, before any collection and
    whatever the collection does; and it then makes only file checks and
    copies: none when no [.plaso] path is saved, and otherwise one check for
    each local path, then one copy for each remote path, in order: for all
    of them when no copy raises, and else for those up to the first one
    whose copy raises, that one included, and for none after it. *)
Theorem process_with_task_data self st task_data :
  let request := request_of w self st in
  let coordinates := coordinates_of w self in
  let s' := run_process w self st in
  let dir := _output_path self in
  send_request w request = None ->
  wait_for_request w coordinates = None ->
  get_task_data w coordinates = inr task_data ->
  store (state_of s') = store st ++ [report_of task_data]
  /\ exists more,
       calls_of (trace_of s') =
         [SendRequest request; WaitForRequest coordinates;
          GetTaskData coordinates] ++ more
       /\ (local_paths task_data = [] -> gs_paths task_data = [] ->
           more = [])
       /\ (~ (local_paths task_data = [] /\ gs_paths task_data = []) ->
           exists fetched,
             more = (PathExists <$> local_paths task_data)
                      ++ ((fun p => CopyFrom p dir) <$> fetched)
             /\ fetched `prefix_of` gs_paths task_data
             /\ ((forall p, p ∈ gs_paths task_data ->
                    ~ fetch_fails w dir p) ->
                 fetched = gs_paths task_data)
             /\ (forall pre path post e,
                   gs_paths task_data = pre ++ path :: post ->
                   (forall p, p ∈ pre -> ~ fetch_fails w dir p) ->
                   copy_from w path dir = inl e ->
                   fetched = pre ++ [path])).
Proof.
  intros request coordinates s' dir Hsend Hwait Hget. subst s'.
  destruct (process_run self st) as (new & Hrun & Hcalls).
  fold request coordinates in Hrun, Hcalls.
  rewrite Hsend, Hwait in Hcalls. rewrite Hsend, Hwait, Hget in Hrun.
  rewrite Hrun.
  destruct (collect_effects task_data
    (mkSys (with_input_disk self st)
       (store_container (report_of task_data) st)
       (new ++ [Print (report_message task_data)])))
    as (_ & _ & Hstore & (more & Htrace & Hevents & Hnone & Hsome) & _).
  cbn [self_of state_of trace_of] in *.
  assert (_output_path (with_input_disk self st) = dir) as Hdir.
  { unfold with_input_disk. destruct (input st) as [|[? ?] ?]; [done|].
    by destruct (String.eqb _ _). }
  rewrite Hdir in Hsome.
  split; [by rewrite Hstore|].
  exists more. split_and!; [|done|done].
  rewrite Htrace, !calls_of_app, Hcalls. cbn [calls_of List.filter is_print negb].
  by rewrite app_nil_r, (calls_of_collect_events more).
Qed.

(** A run of [process] never changes the input; it adds at most one report
    to the store and at most one error to the state, always a critical one;
    and a run that records no error leaves a non-empty output. *)
Theorem process_errors self st :
  let s' := run_process w self st in
  input (state_of s') = input st
  /\ (store (state_of s') = store st
      \/ exists task_data,
           store (state_of s') = store st ++ [report_of task_data])
  /\ exists new,
       errors (state_of s') = errors st ++ new
       /\ length new <= 1
       /\ (forall e critical, (e, critical) ∈ new -> critical = true)
       /\ (new = [] -> output (state_of s') <> []).
Proof.
  intros s'. subst s'.
  destruct (process_run self st) as (new & Hrun & _).
  assert (forall e,
    let s' := mkSys (with_input_disk self st)
                (add_error (Exception e) true st) new in
    input (state_of s') = input st
    /\ (store (state_of s') = store st
        \/ exists task_data,
             store (state_of s') = store st ++ [report_of task_data])
    /\ exists new,
         errors (state_of s') = errors st ++ new
         /\ length new <= 1
         /\ (forall e critical, (e, critical) ∈ new -> critical = true)
         /\ (new = [] -> output (state_of s') <> [])) as Hfail.
  { intros e. cbn. split_and!; [done|by left|].
    eexists. split_and!; [reflexivity|done| |done].
    intros e0 critical Hin. apply list_elem_of_singleton in Hin.
    by simplify_eq. }
  destruct (send_request w _); [rewrite Hrun; apply Hfail|].
  destruct (wait_for_request w _); [rewrite Hrun; apply Hfail|].
  destruct (get_task_data w _) as [e|task_data]; [rewrite Hrun; apply Hfail|].
  rewrite Hrun.
  destruct (collect_effects task_data
    (mkSys (with_input_disk self st)
       (store_container (report_of task_data) st)
       (new ++ [Print (report_message task_data)])))
    as (_ & Hinput & Hstore & _ & Herrors).
  cbn [self_of state_of trace_of store_container input store errors] in *.
  split_and!; [done|right; by exists task_data|done].
Qed.

(** [collect] reads nothing of the tasks but their saved paths: snapshots
    with the same saved paths in the same order are collected alike,
    whatever the names, ids, statuses and results of their tasks, so that
    the files of a failed task are collected like those of a successful
    one. *)
Theorem collect_saved_paths task_data task_data' s :
  saved_paths task_data = saved_paths task_data' ->
  collect w task_data s = collect w task_data' s.
Proof.
  intros Hsaved. unfold collect, local_paths, gs_paths.
  by rewrite !find_plaso_filter, Hsaved.
Qed.

End ProcessRuns.

(** ** [setup] *)

Section SetupFacts.
Import Setup.
Context (c : Collaborators).

Lemma setup_without_error disk_name project turbinia_zone self st :
  let r := setup c disk_name project turbinia_zone self st in
  errors (state r) = errors st <->
  exists project_ zone_ config client,
    project = Some project_ /\ turbinia_zone = Some zone_
    /\ LoadConfig c = inr config
    /\ TURBINIA_PROJECT config = project_
    /\ new_client c = inr client
    /\ state r = st
    /\ attributes r =
         mkAttributes (Some client) disk_name (Some (PUBSUB_TOPIC config))
           (Some project_) (Some (TURBINIA_REGION config)) (Some zone_)
           (Some (mkdtemp c)).
Proof.
  intros r. subst r. unfold setup.
  destruct project as [project_|], turbinia_zone as [zone_|];
    cbn [state attributes add_error errors];
    try (split; [by intros ?%snoc_neq|by intros (? & ? & ? & ? & ? & ? & _)]).
  destruct (LoadConfig c) as [e|config];
    cbn [state attributes add_error errors].
  { split; [by intros ?%snoc_neq|by intros (? & ? & ? & ? & _ & _ & ? & _)]. }
  destruct (String.eqb (TURBINIA_PROJECT config) project_) eqn:Hproject;
    cbn [negb state attributes add_error errors].
  - apply String.eqb_eq in Hproject.
    destruct (new_client c) as [e|client];
      cbn [state attributes add_error errors
           attr_client attr_disk_name attr_instance attr_project
           attr_turbinia_region attr_turbinia_zone attr_output_path].
    + split; [by intros ?%snoc_neq|].
      by intros (? & ? & ? & ? & _ & _ & _ & _ & ? & _).
    + split; [|done]. intros _. by exists project_, zone_, config, client.
  - apply String.eqb_neq in Hproject.
    split; [by intros ?%snoc_neq|].
    intros (? & ? & ? & ? & ? & _ & ? & ? & _). by simplify_eq.
Qed.

(** With the project and the zone given, a configuration that loads, the
    configured project and a client, [setup] goes through. *)
Lemma setup_goes_through disk_name project_ zone_ config client self st :
  let r := setup c disk_name (Some project_) (Some zone_) self st in
  LoadConfig c = inr config ->
  TURBINIA_PROJECT config = project_ ->
  new_client c = inr client ->
  state r = st
  /\ attributes r =
       mkAttributes (Some client) disk_name (Some (PUBSUB_TOPIC config))
         (Some project_) (Some (TURBINIA_REGION config)) (Some zone_)
         (Some (mkdtemp c))
  /\ calls r = [CallLoadConfig; CallMkdtemp; CallTurbiniaClient].
Proof.
  intros r Hconfig Hproject Hclient. subst r. unfold setup.
  rewrite Hconfig, Hproject, String.eqb_refl, Hclient. done.
Qed.

(** [setup] records no error exactly when the project and the zone are
    given, the configuration loads, the project is the configured one and
    the client is created. In that case it leaves the state as it is and
    sets every attribute, from the arguments, the configuration and the
    temporary directory, after loading the configuration, making the
    directory and creating the client, in this order. *)
Theorem setup_succeeds disk_name project turbinia_zone self st :
  let r := setup c disk_name project turbinia_zone self st in
  (errors (state r) = errors st <->
     exists project_ zone_ config client,
       project = Some project_ /\ turbinia_zone = Some zone_
       /\ LoadConfig c = inr config
       /\ TURBINIA_PROJECT config = project_
       /\ new_client c = inr client)
  /\ (forall project_ zone_ config client,
        project = Some project_ -> turbinia_zone = Some zone_ ->
        LoadConfig c = inr config ->
        TURBINIA_PROJECT config = project_ ->
        new_client c = inr client ->
        state r = st
        /\ attributes r =
             mkAttributes (Some client) disk_name
               (Some (PUBSUB_TOPIC config)) (Some project_)
               (Some (TURBINIA_REGION config)) (Some zone_)
               (Some (mkdtemp c))
        /\ calls r = [CallLoadConfig; CallMkdtemp; CallTurbiniaClient]).
Proof.
  intros r. subst r. split.
  - split.
    + intros (project_ & zone_ & config & client & Hp & Hz & Hc & Hpc & Hcl
              & _)%setup_without_error.
      by exists project_, zone_, config, client.
    + intros (project_ & zone_ & config & client & -> & -> & Hc & Hpc & Hcl).
      destruct (setup_goes_through disk_name project_ zone_ config client
                  self st Hc Hpc Hcl) as (-> & _).
      done.
  - intros project_ zone_ config client -> -> Hc Hpc Hcl.
    by apply setup_goes_through.
Qed.

Lemma setup_state_and_attributes disk_name project turbinia_zone self st :
  let r := setup c disk_name project turbinia_zone self st in
  input (state r) = input st /\ output (state r) = output st
  /\ store (state r) = store st
  /\ (exists new,
        errors (state r) = errors st ++ new /\ length new <= 1
        /\ forall e critical, (e, critical) ∈ new -> critical = true)
  /\ (errors (state r) <> errors st ->
      attr_client (attributes r) = attr_client self
      /\ (CallMkdtemp ∉ calls r ->
          attr_output_path (attributes r) = attr_output_path self)
      /\ (CallMkdtemp ∈ calls r ->
          attr_output_path (attributes r) = Some (mkdtemp c)
          /\ exists e, new_client c = inl e)
      /\ (calls r <> [] ->
          attr_project (attributes r) = project
          /\ attr_turbinia_zone (attributes r) = turbinia_zone
          /\ attr_disk_name (attributes r) = disk_name)
      /\ (calls r = [] -> attributes r = self)).
Proof.
  intros r. subst r. unfold setup.
  assert (forall e : error, exists new : list (error * bool),
            errors st ++ [(e, true)] = errors st ++ new /\ length new <= 1
            /\ forall e0 critical, (e0, critical) ∈ new -> critical = true)
    as Hone.
  { intros e. eexists. split_and!; [reflexivity|done|].
    intros e0 critical Hin. apply list_elem_of_singleton in Hin.
    by simplify_eq. }
  destruct project as [project_|], turbinia_zone as [zone_|];
    cbn [state attributes calls add_error errors input output store];
    try (split_and!; [done|done|done|apply Hone|];
         intros _; split_and!; try done;
         intros Hin; by apply elem_of_nil in Hin).
  destruct (LoadConfig c) as [e|config];
    cbn [state attributes calls add_error errors input output store
         attr_client attr_disk_name attr_instance attr_project
         attr_turbinia_region attr_turbinia_zone attr_output_path].
  { split_and!; [done|done|done|apply Hone|].
    intros _. split_and!; try done.
    intros Hin. apply list_elem_of_singleton in Hin. discriminate. }
  destruct (String.eqb (TURBINIA_PROJECT config) project_);
    cbn [negb state attributes calls add_error errors input output store
         attr_client attr_disk_name attr_instance attr_project
         attr_turbinia_region attr_turbinia_zone attr_output_path].
  - destruct (new_client c) as [e|client];
      cbn [state attributes calls add_error errors input output store
           attr_client attr_disk_name attr_instance attr_project
           attr_turbinia_region attr_turbinia_zone attr_output_path].
    + split_and!; [done|done|done|apply Hone|].
      intros _. split_and!; try done.
      * intros Hnot. exfalso. apply Hnot. set_solver.
      * intros _. split; [done|by exists e].
    + split_and!; [done|done|done| |done].
      exists []. rewrite app_nil_r. split_and!; [done|cbn; lia|].
      intros e critical Hin. by apply elem_of_nil in Hin.
  - split_and!; [done|done|done|apply Hone|].
    intros _. split_and!; try done.
    intros Hin. apply list_elem_of_singleton in Hin. discriminate.
Qed.


Lemma setup_calls disk_name project turbinia_zone self st :
  let r := setup c disk_name project turbinia_zone self st in
  (calls r = [] <-> project = None \/ turbinia_zone = None)
  /\ (CallMkdtemp ∈ calls r <->
      exists config,
        LoadConfig c = inr config
        /\ project = Some (TURBINIA_PROJECT config)
        /\ turbinia_zone <> None).
Proof.
  intros r. subst r. unfold setup.
  destruct project as [project_|], turbinia_zone as [zone_|]; cbn [calls];
    try (split; [split; [auto|done]|];
         split; [by intros ?%elem_of_nil|by intros (? & _ & ? & ?)]).
  destruct (LoadConfig c) as [e|config]; cbn [calls].
  { split; [split; [done|by intros [?|?]]|].
    split; [|by intros (? & ? & _)].
    intros Hin. apply list_elem_of_singleton in Hin. discriminate. }
  destruct (String.eqb_spec (TURBINIA_PROJECT config) project_) as [<-|Hne];
    cbn [negb calls].
  - assert (CallMkdtemp ∈ [CallLoadConfig; CallMkdtemp; CallTurbiniaClient])
      as Hin by (apply list_elem_of_further, list_elem_of_here).
    destruct (new_client c); cbn [calls];
      (split; [split; [done|by intros [?|?]]|]);
      (split; [intros _; by exists config|done]).
  - split; [split; [done|by intros [?|?]]|].
    split.
    + intros Hin. apply list_elem_of_singleton in Hin. discriminate.
    + intros (config' & [= <-] & [= ->] & _). done.
Qed.

(** Whatever happens, [setup] adds at most one error, a critical one, and
    leaves input, output and store alone. It creates the temporary directory
    only after the project check, and the client after that: when the
    configuration does not load or the project differs, neither is made and
    [_output_path] and [client] stay as they were, while project, zone and
    disk are already set; when the client cannot be created, the directory
    has been made and [_output_path] is set, without a client. It makes no
    call at all exactly when the project or the zone is missing, and then
    changes no attribute. *)
Theorem setup_fails disk_name project turbinia_zone self st :
  let r := setup c disk_name project turbinia_zone self st in
  input (state r) = input st /\ output (state r) = output st
  /\ store (state r) = store st
  /\ (exists new,
        errors (state r) = errors st ++ new /\ length new <= 1
        /\ forall e critical, (e, critical) ∈ new -> critical = true)
  /\ (errors (state r) <> errors st ->
      attr_client (attributes r) = attr_client self
      /\ (CallMkdtemp ∉ calls r ->
          attr_output_path (attributes r) = attr_output_path self)
      /\ (CallMkdtemp ∈ calls r ->
          attr_output_path (attributes r) = Some (mkdtemp c)
          /\ exists e, new_client c = inl e)
      /\ (calls r <> [] ->
          attr_project (attributes r) = project
          /\ attr_turbinia_zone (attributes r) = turbinia_zone
          /\ attr_disk_name (attributes r) = disk_name)
      /\ (calls r = [] -> attributes r = self))
  /\ (calls r = [] <-> project = None \/ turbinia_zone = None)
  /\ (CallMkdtemp ∈ calls r <->
      exists config,
        LoadConfig c = inr config
        /\ project = Some (TURBINIA_PROJECT config)
        /\ turbinia_zone <> None).
Proof.
  intros r. subst r.
  destruct (setup_state_and_attributes disk_name project turbinia_zone self st)
    as (Hinput & Houtput & Hstore & Herrors & Hfail).
  destruct (setup_calls disk_name project turbinia_zone self st)
    as [Hnone Hmkdtemp].
  by split_and!.
Qed.

End SetupFacts.

(** ** [setup], then [process] *)

Section SetupThenProcess.
Import Setup.
Context (c : Collaborators) (w : World).

(** After a [setup] without error on a fresh object, for a named disk,
    [process] runs on a fully configured processor: the evidence it sends is
    the disk in the configured Turbinia project and the given zone, it waits
    and queries under the configured topic, project and region with the id
    of the request it sent, it copies remote files into the directory made
    by [setup], and it makes no other call. *)
Theorem setup_then_process disk project zone st :
  let r := setup c (Some disk) (Some project) (Some zone) init st in
  errors (state r) = errors st ->
  exists config self,
    LoadConfig c = inr config
    /\ processor_of (attributes r) = Some self
    /\ self = mkTurbiniaProcessor disk (PUBSUB_TOPIC config)
                (TURBINIA_PROJECT config) (TURBINIA_REGION config) zone
                (mkdtemp c)
    /\ forall e, e ∈ calls_of (trace_of (run_process w self (state r))) ->
         match e with
         | SendRequest request =>
             request_id request = request_id (new_request w)
             /\ last (evidence request) =
                  Some (mkGoogleCloudDisk
                          (disk_name (with_input_disk self st))
                          (TURBINIA_PROJECT config) zone)
         | WaitForRequest coordinates | GetTaskData coordinates =>
             coordinates =
               mkRequestDict (PUBSUB_TOPIC config) (TURBINIA_PROJECT config)
                 (TURBINIA_REGION config) (request_id (new_request w))
         | CopyFrom _ dir => dir = mkdtemp c
         | PathExists _ => True
         | Print _ | Sleep _ => False
         end.
Proof.
  intros r Herrors. subst r.
  apply setup_without_error in Herrors
    as (project_ & zone_ & config & client & [= <-] & [= <-] & Hconfig
        & Hproject & Hclient & Hstate & Hattributes).
  exists config.
  exists (mkTurbiniaProcessor disk (PUBSUB_TOPIC config)
            (TURBINIA_PROJECT config) (TURBINIA_REGION config) zone
            (mkdtemp c)).
  split_and!; [done|by rewrite Hattributes, Hproject|done|].
  rewrite Hstate. clear Hstate Hattributes.
  set (self := mkTurbiniaProcessor _ _ _ _ _ _).
  destruct (process_run w self st) as (new & Hrun & Hcalls).
  assert (forall e, e ∈ calls_of new ->
            e = SendRequest (request_of w self st)
            \/ e = WaitForRequest (coordinates_of w self)
            \/ e = GetTaskData (coordinates_of w self)) as Hnew.
  { intros e. rewrite Hcalls.
    destruct (send_request w _); [set_solver|].
    destruct (wait_for_request w _); set_solver. }
  assert (forall e,
            e = SendRequest (request_of w self st)
            \/ e = WaitForRequest (coordinates_of w self)
            \/ e = GetTaskData (coordinates_of w self) ->
            match e with
            | SendRequest request =>
                request_id request = request_id (new_request w)
                /\ last (evidence request) =
                     Some (mkGoogleCloudDisk
                             (disk_name (with_input_disk self st))
                             (TURBINIA_PROJECT config) zone)
            | WaitForRequest coordinates | GetTaskData coordinates =>
                coordinates =
                  mkRequestDict (PUBSUB_TOPIC config)
                    (TURBINIA_PROJECT config) (TURBINIA_REGION config)
                    (request_id (new_request w))
            | CopyFrom _ dir => dir = mkdtemp c
            | PathExists _ => True
            | Print _ | Sleep _ => False
            end) as Hdispatch.
  { intros e [->|[->| ->]]; [|done..].
    split; [done|]. unfold request_of. cbn [evidence]. apply last_snoc. }
  destruct (send_request w _);
    [rewrite Hrun; intros e He; by apply Hdispatch, Hnew|].
  destruct (wait_for_request w _);
    [rewrite Hrun; intros e He; by apply Hdispatch, Hnew|].
  destruct (get_task_data w _) as [exn|task_data];
    [rewrite Hrun; intros e He; by apply Hdispatch, Hnew|].
  rewrite Hrun.
  destruct (collect_effects w task_data
    (mkSys (with_input_disk self st)
       (store_container (report_of task_data) st)
       (new ++ [Print (report_message task_data)])))
    as (_ & _ & _ & (more & Htrace & Hevents & Hnone & Hsome) & _).
  cbn [self_of state_of trace_of] in *.
  rewrite Htrace, !calls_of_app.
  cbn [calls_of List.filter is_print negb]. rewrite app_nil_r.
  rewrite (calls_of_collect_events more) by done.
  intros e [He|He]%elem_of_app; [by apply Hdispatch, Hnew|].
  destruct (decide (local_paths task_data = [] /\ gs_paths task_data = []))
    as [[Hl Hg]|Hfound].
  - rewrite (Hnone Hl Hg) in He. by apply elem_of_nil in He.
  - destruct (Hsome Hfound) as (fetched & -> & _).
    apply elem_of_app in He as [He|He];
      apply list_elem_of_fmap in He as (p & -> & _); [done|].
    unfold with_input_disk. destruct (input st) as [|[? ?] ?]; [done|].
    by destruct (String.eqb _ _).
Qed.

End SetupThenProcess.

(** ** More about the polling loop *)

Module PollerMore.
Import Poller PollerFacts.

(** The completed and the pending tasks of a snapshot are two disjoint sets
    of ids that together hold every id of the snapshot: the two counts of
    the status line add up to the number of distinct ids, which is the
    number of records exactly when no two records share an id. *)
Theorem completed_pending_partition l :
  completed_tasks l ## pending_tasks l
  /\ completed_tasks l ∪ pending_tasks l = list_to_set (task_id <$> l)
  /\ size (completed_tasks l) + size (pending_tasks l) <= length l
  /\ (size (completed_tasks l) + size (pending_tasks l) = length l
      <-> NoDup (task_id <$> l)).
Proof.
  assert (completed_tasks l ## pending_tasks l) as Hdisj.
  { intros i (t & Ht & Hres)%elem_of_completed
             (u & Hu & Hnone)%elem_of_pending.
    rewrite Ht in Hu. simplify_eq. congruence. }
  assert (completed_tasks l ∪ pending_tasks l = list_to_set (task_id <$> l))
    as Hunion.
  { apply set_eq. intros i.
    rewrite elem_of_union, elem_of_completed, elem_of_pending.
    rewrite <- tasks_by_id_dom, elem_of_dom. split.
    - intros [(t & Ht & _)|(t & Ht & _)]; eauto.
    - intros [t Ht]. destruct (has_result t) eqn:Hres; eauto. }
  assert (size (completed_tasks l) + size (pending_tasks l)
          = size (list_to_set (task_id <$> l) : gset string)) as Hsize
    by (by rewrite <- Hunion, size_union).
  pose proof (size_list_to_set_le (task_id <$> l)) as Hle.
  rewrite length_fmap in Hle.
  split_and!; [done|done|lia|]. rewrite Hsize. split.
  - intros Heq. apply size_list_to_set_NoDup. by rewrite length_fmap.
  - intros Hnd. rewrite size_list_to_set by done. by rewrite length_fmap.
Qed.

(** When several records of a snapshot share an id, the last one stands for
    the task: it is the record found under the id, and the task is completed
    or pending as this record says. *)
Theorem last_record_wins l i :
  tasks_by_id l !! i = last (filter (fun t => task_id t = i) l)
  /\ (i ∈ completed_tasks l <->
      exists t, last (filter (fun t => task_id t = i) l) = Some t
                /\ has_result t = true)
  /\ (i ∈ pending_tasks l <->
      exists t, last (filter (fun t => task_id t = i) l) = Some t
                /\ has_result t = false).
Proof.
  assert (tasks_by_id l !! i = last (filter (fun t => task_id t = i) l))
    as Hlast.
  { induction l as [|t l IH] using rev_ind; [done|].
    rewrite tasks_by_id_snoc, filter_app, filter_cons, filter_nil.
    destruct (decide (task_id t = i)) as [<-|Hne].
    - by rewrite lookup_insert_eq, last_snoc.
    - by rewrite lookup_insert_ne, app_nil_r. }
  split_and!; [done|..].
  - by rewrite elem_of_completed, Hlast.
  - by rewrite elem_of_pending, Hlast.
Qed.

Lemma filter_sleep_prints (lines : list string) :
  List.filter is_sleep (Print <$> lines) = [].
Proof. induction lines as [|x lines IH]; [done|]. cbn. apply IH. Qed.

Lemma loop_sleeps poll dt fuel : forall i tot,
  let r := loop poll dt fuel i tot in
  List.filter is_sleep (trace r) =
    replicate (polls r - i - (if returned r then 1 else 0)) (Sleep dt).
Proof.
  induction fuel as [|fuel IH]; intros i tot; cbn [loop].
  - cbn. by rewrite Nat.sub_diag.
  - destruct (all_completed (poll i)) eqn:Hdone.
    + cbn [returned polls trace].
      rewrite List.filter_app, filter_sleep_prints.
      replace (S i - i - 1) with 0 by lia. done.
    + specialize (IH (S i) (update_total tot (poll i))). cbn zeta in IH.
      cbn [add_events returned polls trace].
      rewrite !List.filter_app, filter_sleep_prints, IH.
      cbn [app List.filter is_sleep].
      destruct (returned (loop poll dt fuel (S i) _)) eqn:Hret.
      * apply loop_returns in Hret as (k & _ & Hp & _). rewrite Hp.
        replace (S (S i + k) - i - 1) with (S (S (S i + k) - S i - 1))
          by lia.
        done.
      * apply loop_running in Hret. rewrite Hret.
        replace (S i + fuel - i - 0) with (S (S i + fuel - S i - 0)) by lia.
        done.
Qed.

Lemma loop_last poll dt fuel : forall i tot,
  let r := loop poll dt fuel i tot in
  returned r = true ->
  last (trace r) =
    Some (Print ("All " +:+ Py.format_d (length (poll (polls r - 1)))
                   +:+ " Tasks completed")).
Proof.
  induction fuel as [|fuel IH]; intros i tot; cbn [loop]; [done|].
  destruct (all_completed (poll i)) eqn:Hdone.
  - cbn [returned polls trace]. intros _. rewrite last_snoc.
    by replace (S i - 1) with i by lia.
  - cbn [add_events returned polls trace]. intros Hret.
    specialize (IH (S i) (update_total tot (poll i)) Hret). cbn zeta in IH.
    rewrite last_app, IH. done.
Qed.

(** The loop sleeps [poll_interval] seconds between two polls and at no
    other time: a run that has returned after [n] polls has slept [n - 1]
    times, and a run still going after [n] polls has slept [n] times. The
    last thing a run that returns does is to print the closing line, which
    names the number of records of the last snapshot. *)
Theorem sleeps_between_polls poll dt fuel :
  let r := display_task_progress poll dt fuel in
  List.filter is_sleep (trace r) =
    replicate (polls r - (if returned r then 1 else 0)) (Sleep dt)
  /\ (returned r = false -> polls r = fuel)
  /\ (returned r = true ->
      1 <= polls r <= fuel
      /\ last (trace r) =
           Some (Print ("All " +:+ Py.format_d (length (poll (polls r - 1)))
                          +:+ " Tasks completed"))).
Proof.
  intros r. subst r. unfold display_task_progress. split_and!.
  - pose proof (loop_sleeps poll dt fuel 0 0) as H. cbn zeta in H.
    by rewrite Nat.sub_0_r in H.
  - intros Hret. by apply loop_running in Hret.
  - intros Hret. split; [|by apply loop_last].
    apply loop_returns in Hret as (k & Hk & -> & _). lia.
Qed.

(** A snapshot without completed task, the empty one for instance, is
    reported whatever was reported before, does not end the loop, and sets
    [total_completed] back to zero, so that the next snapshot is reported
    too, whatever it holds. *)
Theorem nothing_completed tot l :
  completed_tasks l = ∅ ->
  emitted tot l = progress_report l
  /\ all_completed l = false
  /\ update_total tot l = 0
  /\ forall l', emitted (update_total tot l) l' = progress_report l'.
Proof.
  intros Hnone.
  assert (reports tot l = true) as Hrep.
  { unfold reports. rewrite Hnone.
    by rewrite bool_decide_eq_true_2, orb_true_r. }
  assert (update_total tot l = 0) as Hzero.
  { unfold update_total. by rewrite Hrep, Hnone, size_empty. }
  split_and!; [|  |done|].
  - unfold emitted. by rewrite Hrep.
  - unfold all_completed. rewrite Hnone.
    by rewrite bool_decide_eq_true_2, andb_false_r.
  - intros l'. rewrite Hzero. unfold emitted.
    assert (reports 0 l' = true) as ->; [|done].
    apply reports_spec. lia.
Qed.

End PollerMore.

(** ** The listing of a task *)

Section Listing.

Lemma print_paths_filter id paths :
  print_paths id paths =
    (fun p => "   " +:+ p) <$> List.filter (listed id) paths.
Proof.
  induction paths as [|p paths IH]; [done|].
  cbn [print_paths List.filter]. unfold listed at 1.
  destruct (Py.endswith p "worker-log.txt"); [done|].
  destruct (Py.endswith p (id +:+ ".log")); [done|].
  destruct (Py.startswith p "/"); [done|].
  cbn. by rewrite IH.
Qed.

Lemma report_paths_filter id paths :
  report_paths id paths =
    joined ((fun p => "  " +:+ p +:+ newline)
              <$> List.filter (listed id) paths).
Proof.
  induction paths as [|p paths IH]; [done|].
  cbn [report_paths List.filter]. unfold listed at 1.
  destruct (Py.endswith p "worker-log.txt"); [done|].
  destruct (Py.endswith p (id +:+ ".log")); [done|].
  destruct (Py.startswith p "/"); [done|].
  cbn [negb andb fmap list_fmap joined foldr].
  fold (joined ((fun p => "  " +:+ p +:+ newline)
                  <$> List.filter (listed id) paths)).
  rewrite IH. by rewrite !PyFacts.append_assoc.
Qed.

(** [_print_task_data] and the report of [process] list the same paths under
    a task, in the order in which they are saved: the saved paths that do
    not end in [worker-log.txt], nor in the id of the task followed by
    [.log], and do not start with a slash. The first prints them after the
    line of the name and id, the second puts them after the status line. *)
Theorem listing_of_task (t : task) :
  _print_task_data t =
    (" " +:+ task_name t +:+ " (" +:+ task_id t +:+ ")")
    :: ((fun p => "   " +:+ p) <$> shown_paths t)
  /\ report_task t =
       status_line t
         +:+ joined ((fun p => "  " +:+ p +:+ newline) <$> shown_paths t).
Proof.
  unfold _print_task_data, report_task, shown_paths.
  rewrite report_paths_filter. split; [|done]. f_equal.
  destruct (task_saved_paths t) as [| |[|p paths]]; try done.
  cbn [Py.get_default Py.get Py.or_empty]. apply print_paths_filter.
Qed.

(** Every remote [.plaso] path that [process] collects is listed under a
    task that saved it, in the report as in the progress display; no local
    [.plaso] path that it collects is listed under any task. *)
Theorem listing_of_artifacts task_data :
  (forall p, p ∈ gs_paths task_data ->
     exists t, t ∈ task_data /\ p ∈ shown_paths t)
  /\ (forall p, p ∈ local_paths task_data ->
        forall t, p ∉ shown_paths t).
Proof.
  split.
  - intros p [Hsaved Hgs]%elem_of_gs_paths.
    apply elem_of_saved_paths in Hsaved as (t & Ht & Hp).
    exists t. split; [done|]. unfold shown_paths.
    apply list_elem_of_In, List.filter_In. split; [by apply list_elem_of_In|].
    pose proof (gs_plaso_not_log p Hgs) as Hlog.
    apply andb_true_iff in Hgs as [Hstart _].
    unfold listed. rewrite !andb_true_iff, !negb_true_iff. split_and!.
    + apply not_true_iff_false. intros H. apply Hlog. by left.
    + apply not_true_iff_false. intros H. apply Hlog. right. by exists (task_id t).
    + destruct p as [|a p]; [done|]. cbn [Py.startswith] in Hstart |- *.
      destruct (Ascii.eqb_spec "g" a) as [<-|_]; [done|discriminate].
  - intros p [_ Hlocal]%elem_of_local_paths t Hshown.
    apply list_elem_of_In, List.filter_In in Hshown as [_ Hlisted].
    apply andb_true_iff in Hlocal as [Hstart _].
    unfold listed in Hlisted. rewrite Hstart in Hlisted.
    by rewrite andb_false_r in Hlisted.
Qed.

End Listing.

(** ** The helpers of the Timesketch export *)

Module TimesketchFacts.
Import Timesketch.

Lemma before_last_dot_none s : has_dot s = false -> before_last_dot s = "".
Proof.
  destruct s as [|c s]; [done|]. cbn [has_dot before_last_dot].
  by intros [_ ->]%orb_false_iff.
Qed.

Lemma before_last_dot_some s :
  has_dot s = true ->
  exists ext, has_dot ext = false
    /\ s = before_last_dot s +:+ String dot ext.
Proof.
  induction s as [|c s IH]; [done|]. cbn [has_dot before_last_dot].
  destruct (has_dot s) eqn:Hs.
  - intros _. destruct (IH eq_refl) as (ext & Hext & Heq).
    exists ext. split; [done|].
    change (String c s = String c (before_last_dot s +:+ String dot ext)).
    by rewrite <- Heq.
  - rewrite orb_false_r. intros ->%Ascii.eqb_eq. by exists s.
Qed.

Lemma replace_get old new s i :
  String.get i (replace old new s) =
    (fun c => if Ascii.eqb c old then new else c) <$> String.get i s.
Proof.
  revert i. induction s as [|c s IH]; intros [|i]; cbn; auto.
Qed.

Lemma replace_length old new s :
  String.length (replace old new s) = String.length s.
Proof. induction s as [|c s IH]; [done|]. cbn. by rewrite IH. Qed.

Lemma replace_contains old new s :
  new <> old -> contains old (replace old new s) = false.
Proof.
  intros Hne. induction s as [|c s IH]; [done|].
  cbn [replace contains]. rewrite IH, orb_false_r.
  destruct (Ascii.eqb_spec c old) as [->|Hc]; by apply Ascii.eqb_neq.
Qed.

Lemma replace_keeps c old new s :
  c <> new -> contains c s = false -> contains c (replace old new s) = false.
Proof.
  intros Hne. induction s as [|a s IH]; [done|].
  cbn [replace contains]. intros [Ha Hs]%orb_false_iff.
  rewrite (IH Hs), orb_false_r.
  destruct (Ascii.eqb a old); [|done]. apply Ascii.eqb_neq. congruence.
Qed.

(** The name derived from a file name is what comes before its last dot,
    with every space and every dash turned into an underscore and the other
    characters kept: it has no space and no dash. What follows the last dot
    is dropped, and a file name without any dot gives the empty name. *)
Theorem input_name_spec description :
  (has_dot description = false -> input_name description = "")
  /\ (has_dot description = true ->
      exists ext, has_dot ext = false
        /\ description = before_last_dot description +:+ String dot ext)
  /\ String.length (input_name description)
     = String.length (before_last_dot description)
  /\ (forall i, String.get i (input_name description)
                = tidy <$> String.get i (before_last_dot description))
  /\ contains space (input_name description) = false
  /\ contains dash (input_name description) = false.
Proof.
  unfold input_name. split_and!.
  - by intros ->%before_last_dot_none.
  - apply before_last_dot_some.
  - by rewrite !replace_length.
  - intros i. rewrite !replace_get.
    destruct (String.get i (before_last_dot description)) as [c|]; [|done].
    cbn. f_equal. unfold tidy.
    destruct (Ascii.eqb_spec c space) as [->|Hspace]; [done|].
    by destruct (Ascii.eqb c dash).
  - apply replace_keeps; [done|]. by apply replace_contains.
  - by apply replace_contains.
Qed.

Lemma length_append (a b : string) :
  String.length (a +:+ b) = String.length a + String.length b.
Proof.
  induction a as [|c a IH]; [done|].
  change (S (String.length (a +:+ b)) = S (String.length a + String.length b)).
  by rewrite IH.
Qed.

Lemma input_names_filter files :
  input_names files =
    input_name <$> filter (fun name => name <> "") (file_name <$> files).
Proof.
  unfold input_names.
  assert (forall names,
    foldl (fun names file_container =>
             if String.eqb (file_name file_container) "" then names
             else names ++ [input_name (file_name file_container)])
      names files =
    names ++ (input_name
                <$> filter (fun name => name <> "") (file_name <$> files)))
    as H; [|apply H].
  induction files as [|f files IH]; intros names; cbn [foldl].
  - by rewrite app_nil_r.
  - rewrite IH, fmap_cons, filter_cons.
    destruct (String.eqb_spec (file_name f) "") as [Heq|Hne].
    + by rewrite decide_False by (by intros ?).
    + rewrite decide_True by done. by rewrite fmap_cons, <- app_assoc.
Qed.

(** The timeline is named after the recipe, or [no_recipe] when the recipe
    has no name. Files with an empty name are passed over; when no file has
    a name the timeline name is the recipe name alone, and otherwise it is
    the recipe name, an underscore, and the names derived from the named
    files, in their order, joined by underscores. A single file named
    without a dot thus gives the recipe name followed by an underscore. *)
Theorem timeline_name_spec (recipe : gmap string string) files :
  let recipe_name := default "no_recipe" (recipe !! "name") in
  let named := filter (fun name => name <> "") (file_name <$> files) in
  (named = [] -> timeline_name recipe files = recipe_name)
  /\ (named <> [] ->
      timeline_name recipe files =
        recipe_name +:+ "_" +:+ String.concat "_" (input_name <$> named))
  /\ (timeline_name recipe files = recipe_name <-> named = [])
  /\ (forall f, file_name f <> "" -> has_dot (file_name f) = false ->
        timeline_name recipe [f] = recipe_name +:+ "_").
Proof.
  intros recipe_name named. unfold timeline_name.
  rewrite input_names_filter. fold recipe_name named.
  split_and!.
  - by intros ->.
  - intros Hne. by destruct named.
  - split; [|by intros ->]. intros Heq.
    destruct named as [|name rest]; [done|exfalso].
    cbn [fmap list_fmap] in Heq. apply (f_equal String.length) in Heq.
    rewrite !length_append in Heq. cbn in Heq. lia.
  - intros f Hname Hdot. rewrite input_names_filter.
    cbn [fmap list_fmap]. rewrite filter_cons, decide_True by done.
    rewrite filter_nil. cbn [fmap list_fmap String.concat].
    unfold input_name. by rewrite (before_last_dot_none _ Hdot).
Qed.

Lemma sketch_id_cons sketch_id_of a rest :
  _GetSketchIDFromAttributes sketch_id_of (a :: rest) =
    match held_sketch_id sketch_id_of a with
    | Some id => Some id
    | None => _GetSketchIDFromAttributes sketch_id_of rest
    end.
Proof.
  cbn [_GetSketchIDFromAttributes]. unfold held_sketch_id.
  by destruct (String.eqb _ _).
Qed.

(** [_GetSketchIDFromAttributes] returns the id found in the first
    attribute that is named [Timesketch URL] and whose value holds one:
    the values of attributes under another name are not searched, and an
    attribute under that name without an id does not end the search. It
    returns [None] exactly when no attribute holds an id. *)
Theorem sketch_id_from_attributes (sketch_id_of : string -> option nat)
    attributes :
  (forall id,
     _GetSketchIDFromAttributes sketch_id_of attributes = Some id <->
     exists before a after,
       attributes = before ++ a :: after
       /\ held_sketch_id sketch_id_of a = Some id
       /\ forall b, b ∈ before -> held_sketch_id sketch_id_of b = None)
  /\ (_GetSketchIDFromAttributes sketch_id_of attributes = None <->
      forall a, a ∈ attributes -> held_sketch_id sketch_id_of a = None)
  /\ (forall a, attribute_name a <> _SKETCH_ATTRIBUTE_NAME ->
        held_sketch_id sketch_id_of a = None).
Proof.
  split_and!.
  - induction attributes as [|a rest IH]; intros id.
    { split; [done|]. by intros ([|? ?] & ? & ? & ? & _). }
    rewrite sketch_id_cons.
    destruct (held_sketch_id sketch_id_of a) as [id0|] eqn:Ha.
    + split.
      * intros [= <-]. exists [], a, rest. split_and!; [done|done|].
        intros b Hb. by apply elem_of_nil in Hb.
      * intros ([|b before] & a' & after & Heq & Ha' & Hbefore);
          injection Heq as <- ->.
        -- congruence.
        -- rewrite (Hbefore a) in Ha by apply list_elem_of_here. done.
    + rewrite IH. split.
      * intros (before & a' & after & -> & Ha' & Hbefore).
        exists (a :: before), a', after. split_and!; [done|done|].
        intros b [->|Hb]%elem_of_cons; [done|by apply Hbefore].
      * intros ([|b before] & a' & after & Heq & Ha' & Hbefore);
          injection Heq as <- ->.
        -- congruence.
        -- exists before, a', after. split_and!; [done|done|].
           intros b' Hb'. apply Hbefore. by apply list_elem_of_further.
  - induction attributes as [|a rest IH].
    { split; [|done]. intros _ a Ha. by apply elem_of_nil in Ha. }
    rewrite sketch_id_cons.
    destruct (held_sketch_id sketch_id_of a) as [id0|] eqn:Ha.
    + split; [done|]. intros Hall.
      rewrite (Hall a) in Ha by apply list_elem_of_here. done.
    + rewrite IH. split.
      * intros Hall b [->|Hb]%elem_of_cons; [done|by apply Hall].
      * intros Hall b Hb. apply Hall. by apply list_elem_of_further.
  - intros a Hname. unfold held_sketch_id.
    by destruct (String.eqb_spec (attribute_name a) _SKETCH_ATTRIBUTE_NAME).
Qed.

Lemma all_finished_done status timelines :
  (all_finished status timelines).1 = all_done status timelines.
Proof.
  induction timelines as [|tl rest IH]; [done|].
  cbn [all_finished all_done forallb].
  destruct (finished (status tl)); [|done].
  destruct (all_finished status rest) as [b evs]. by cbn in *.
Qed.

Lemma all_finished_reads status timelines :
  List.filter is_wait_sleep (all_finished status timelines).2 = [].
Proof.
  induction timelines as [|tl rest IH]; [done|].
  cbn [all_finished]. destruct (finished (status tl)); [|done].
  destruct (all_finished status rest) as [b evs]. by cbn in *.
Qed.

Lemma wait_loop_spec status timelines fuel : forall i,
  let r := wait_loop status timelines fuel i in
  (r.1 = true <->
   exists k, k < fuel /\ all_done (status (i + k)) timelines = true)
  /\ forall k, all_done (status (i + k)) timelines = true ->
       (forall j, j < k -> all_done (status (i + j)) timelines = false) ->
       k < fuel ->
       List.filter is_wait_sleep r.2 = replicate k (WaitSleep 10).
Proof.
  induction fuel as [|fuel IH]; intros i; cbn [wait_loop].
  { cbn. split; [|intros; lia]. split; [done|]. intros (k & ? & _). lia. }
  pose proof (all_finished_done (status i) timelines) as Hdone.
  pose proof (all_finished_reads (status i) timelines) as Hreads.
  destruct (all_finished (status i) timelines) as [done reads].
  cbn [fst snd] in Hdone, Hreads. destruct done.
  - cbn [fst snd]. split.
    + split; [|done]. intros _. exists 0. rewrite Nat.add_0_r. split; [lia|done].
    + intros [|k] Hk Hbefore _; [by rewrite Hreads|].
      specialize (Hbefore 0 ltac:(lia)). rewrite Nat.add_0_r in Hbefore.
      congruence.
  - specialize (IH (S i)). cbn zeta in IH.
    destruct (wait_loop status timelines fuel (S i)) as [b evs].
    cbn [fst snd] in *. destruct IH as [IHret IHsleeps]. split.
    + rewrite IHret. split.
      * intros (k & Hk & Hd). exists (S k).
        replace (i + S k) with (S i + k) by lia. split; [lia|done].
      * intros ([|k] & Hk & Hd).
        -- rewrite Nat.add_0_r in Hd. congruence.
        -- exists k. replace (S i + k) with (i + S k) by lia.
           split; [lia|done].
    + intros [|k] Hk Hbefore Hfuel.
      * rewrite Nat.add_0_r in Hk. congruence.
      * rewrite List.filter_app, Hreads. cbn [app List.filter is_wait_sleep].
        cbn [replicate]. f_equal. apply IHsleeps; [|  |lia].
        -- by replace (S i + k) with (i + S k) by lia.
        -- intros j Hj. replace (S i + j) with (i + S j) by lia.
           apply Hbefore. lia.
Qed.

(** [_WaitForTimelines] sleeps five seconds, fetches the timelines once, and
    returns at the first check at which every one of them is [fail],
    [ready], [timeout] or [archived], having slept ten seconds after each
    earlier check; it returns within some number of checks exactly when
    there is such a check. With no timeline at all the first check succeeds:
    it returns after the five seconds, without reading any status. *)
Theorem wait_for_timelines status timelines :
  (forall fuel,
     (_WaitForTimelines status timelines fuel).1 = true <->
     exists n, n < fuel /\ all_done (status n) timelines = true)
  /\ (forall fuel n,
        all_done (status n) timelines = true ->
        (forall m, m < n -> all_done (status m) timelines = false) ->
        n < fuel ->
        List.filter is_wait_sleep (_WaitForTimelines status timelines fuel).2
        = WaitSleep 5 :: replicate n (WaitSleep 10))
  /\ (timelines = [] ->
      forall fuel,
        _WaitForTimelines status timelines (S fuel) =
          (true, [WaitSleep 5; GetSketch; ListTimelines])).
Proof.
  split_and!.
  - intros fuel. unfold _WaitForTimelines.
    pose proof (proj1 (wait_loop_spec status timelines fuel 0)) as H.
    cbn zeta in H. destruct (wait_loop status timelines fuel 0) as [b evs].
    cbn [fst] in *. done.
  - intros fuel n Hn Hbefore Hfuel. unfold _WaitForTimelines.
    pose proof (proj2 (wait_loop_spec status timelines fuel 0) n Hn Hbefore
                  Hfuel) as H.
    cbn zeta in H. destruct (wait_loop status timelines fuel 0) as [b evs].
    cbn [snd] in *. cbn [List.filter is_wait_sleep]. by rewrite H.
  - intros -> fuel. done.
Qed.

End TimesketchFacts.

(** ** More sample runs *)

(** [process_with_task_data] on a run whose second copy raises. *)
Lemma process_with_task_data_witness :
  let task_data := [Examples.broken_copy_task] in
  let w := Examples.world task_data in
  let self := Examples.processor in
  let st := Examples.fresh_state in
  let request := request_of w self st in
  let coordinates := coordinates_of w self in
  let s' := run_process w self st in
  let dir := _output_path self in
  send_request w request = None
  /\ wait_for_request w coordinates = None
  /\ get_task_data w coordinates = inr task_data
  /\ store (state_of s') = store st ++ [report_of task_data]
  /\ exists more,
       calls_of (trace_of s') =
         [SendRequest request; WaitForRequest coordinates;
          GetTaskData coordinates] ++ more
       /\ (local_paths task_data = [] -> gs_paths task_data = [] ->
           more = [])
       /\ (~ (local_paths task_data = [] /\ gs_paths task_data = []) ->
           exists fetched,
             more = (PathExists <$> local_paths task_data)
                      ++ ((fun p => CopyFrom p dir) <$> fetched)
             /\ fetched `prefix_of` gs_paths task_data
             /\ ((forall p, p ∈ gs_paths task_data ->
                    ~ fetch_fails w dir p) ->
                 fetched = gs_paths task_data)
             /\ (forall pre path post e,
                   gs_paths task_data = pre ++ path :: post ->
                   (forall p, p ∈ pre -> ~ fetch_fails w dir p) ->
                   copy_from w path dir = inl e ->
                   fetched = pre ++ [path])).
Proof.
  intros task_data w self st request coordinates s' dir.
  assert (send_request w request = None) as H1 by reflexivity.
  assert (wait_for_request w coordinates = None) as H2 by reflexivity.
  assert (get_task_data w coordinates = inr task_data) as H3 by reflexivity.
  exact (conj H1 (conj H2 (conj H3
    (process_with_task_data w self st task_data H1 H2 H3)))).
Defined.

(** [collect_saved_paths] on a successful and a failed task with the same
    saved paths. *)
Lemma collect_saved_paths_witness :
  let task_data := [Examples.plaso_task] in
  let task_data' := [MoreExamples.failed_plaso_task] in
  let w := Examples.world task_data in
  saved_paths task_data = saved_paths task_data'
  /\ collect w task_data Examples.start = collect w task_data' Examples.start.
Proof.
  intros task_data task_data' w.
  assert (saved_paths task_data = saved_paths task_data') as H1
    by reflexivity.
  exact (conj H1 (collect_saved_paths w task_data task_data' Examples.start H1)).
Defined.

(** [setup_succeeds] on the sample configuration: with the configured
    project no error is recorded and every attribute is set; with another
    project an error is. *)
Lemma setup_succeeds_witness :
  let c := MoreExamples.collaborators in
  let st := Examples.fresh_state in
  let r := Setup.setup c (Some "disk-1") (Some "project-a")
             (Some "us-central1-f") Setup.init st in
  let r' := Setup.setup c (Some "disk-1") (Some "project-b")
              (Some "us-central1-f") Setup.init st in
  errors (Setup.state r) = errors st
  /\ Setup.state r = st
  /\ Setup.attributes r =
       Setup.mkAttributes (Some Setup.TurbiniaClient) (Some "disk-1")
         (Some "turbinia") (Some "project-a") (Some "us-central1")
         (Some "us-central1-f") (Some "/tmp/turbinia")
  /\ Setup.calls r =
       [Setup.CallLoadConfig; Setup.CallMkdtemp; Setup.CallTurbiniaClient]
  /\ errors (Setup.state r') <> errors st.
Proof.
  intros c st r r'.
  destruct (setup_succeeds c (Some "disk-1") (Some "project-a")
              (Some "us-central1-f") Setup.init st) as [Hiff Hthen].
  destruct (setup_succeeds c (Some "disk-1") (Some "project-b")
              (Some "us-central1-f") Setup.init st) as [Hiff' _].
  split.
  - apply Hiff.
    exists "project-a", "us-central1-f", MoreExamples.config,
      Setup.TurbiniaClient.
    repeat split; reflexivity.
  - split; [|split; [|split]].
    + apply (Hthen "project-a" "us-central1-f" MoreExamples.config
               Setup.TurbiniaClient); reflexivity.
    + apply (Hthen "project-a" "us-central1-f" MoreExamples.config
               Setup.TurbiniaClient); reflexivity.
    + apply (Hthen "project-a" "us-central1-f" MoreExamples.config
               Setup.TurbiniaClient); reflexivity.
    + intros Hsame. apply Hiff' in Hsame.
      destruct Hsame as (project_ & zone_ & config & client & Hp & _ & Hc
                         & Hpc & _).
      injection Hp as <-. injection Hc as <-. discriminate Hpc.
Defined.

(** [setup_then_process] on the sample configuration. *)
Lemma setup_then_process_witness :
  let c := MoreExamples.collaborators in
  let w := Examples.world [Examples.plaso_task] in
  let st := Examples.fresh_state in
  let disk := "disk-1" in
  let project := "project-a" in
  let zone := "us-central1-f" in
  let r := Setup.setup c (Some disk) (Some project) (Some zone) Setup.init st in
  errors (Setup.state r) = errors st
  /\ exists config self,
       Setup.LoadConfig c = inr config
       /\ Setup.processor_of (Setup.attributes r) = Some self
       /\ self = mkTurbiniaProcessor disk (Setup.PUBSUB_TOPIC config)
                   (Setup.TURBINIA_PROJECT config)
                   (Setup.TURBINIA_REGION config) zone (Setup.mkdtemp c)
       /\ forall e,
            e ∈ calls_of (trace_of (run_process w self (Setup.state r))) ->
            match e with
            | SendRequest request =>
                request_id request = request_id (new_request w)
                /\ last (evidence request) =
                     Some (mkGoogleCloudDisk
                             (disk_name (with_input_disk self st))
                             (Setup.TURBINIA_PROJECT config) zone)
            | WaitForRequest coordinates | GetTaskData coordinates =>
                coordinates =
                  mkRequestDict (Setup.PUBSUB_TOPIC config)
                    (Setup.TURBINIA_PROJECT config)
                    (Setup.TURBINIA_REGION config)
                    (request_id (new_request w))
            | CopyFrom _ dir => dir = Setup.mkdtemp c
            | PathExists _ => True
            | Print _ | Sleep _ => False
            end.
Proof.
  intros c w st disk project zone r.
  assert (errors (Setup.state r) = errors st) as H1 by reflexivity.
  exact (conj H1 (setup_then_process c w disk project zone st H1)).
Defined.

(** [nothing_completed] on a snapshot with one pending task. *)
Lemma nothing_completed_witness :
  let l := Examples.one_pending in
  Poller.completed_tasks l = ∅
  /\ Poller.emitted 3 l = Poller.progress_report l
  /\ Poller.all_completed l = false
  /\ Poller.update_total 3 l = 0
  /\ forall l', Poller.emitted (Poller.update_total 3 l) l'
                = Poller.progress_report l'.
Proof.
  intros l.
  assert (Poller.completed_tasks l = ∅) as H1 by (vm_compute; reflexivity).
  exact (conj H1 (PollerMore.nothing_completed 3 l H1)).
Defined.

(** [process_dispatch_exception] on a run in which waiting for the request
    raises: the request was sent, the task data are not asked for, and the
    error is the only change of the state. *)
Lemma process_dispatch_exception_witness :
  let w := MoreExamples.raising_world in
  let self := Examples.processor in
  let st := Examples.fresh_state in
  let e := "Turbinia is not reachable" in
  let request := request_of w self st in
  let coordinates := coordinates_of w self in
  let s' := run_process w self st in
  send_request w request = None
  /\ wait_for_request w coordinates = Some e
  /\ calls_of (trace_of s') =
       [SendRequest request; WaitForRequest coordinates]
  /\ state_of s' = add_error (Exception e) true st.
Proof.
  intros w self st e request coordinates s'.
  assert (send_request w request = None) as H1 by reflexivity.
  assert (wait_for_request w coordinates = Some e) as H2 by reflexivity.
  exact (conj H1 (conj H2
    (proj1 (proj2 (process_dispatch_exception w self st e)) H1 H2))).
Defined.
